(** * repo2AI: the directory-tree serializer of [local_repo2ai.py]

    A shallow embedding of [describe_repo_contents_xml] and of its two nested
    functions [should_exclude_path] and [build_structure_xml], followed by
    the properties of the exclusion predicate, the content loader, the tree
    builder and the whole pipeline.

    Modelling conventions.
    - A Python [str] is a list of Unicode code points ([pystr]).
    - The platform is POSIX: [os.sep] is the character '/'.
    - The file system below [repo_folder] is a finite tree ([entry]); every
      system call the script makes on it ([os.listdir], [os.path.isfile],
      [os.path.isdir], [os.path.getsize], [open]/[read]) is an observation of
      that tree, and may raise.  Symbolic-link cycles and entries that change
      while the script runs are outside the model.
    - [print] calls (progress output) are not modelled. *)

From Stdlib Require Import Ascii String DecimalString.
From Stdlib Require Import NArith Bool Arith Lia List Permutation Sorted.
Import ListNotations.

Set Warnings "-register-all".


(* ================================================================= *)
(** * Python strings *)

Definition pystr := list N.

(** A string literal of the source, as code points. *)
Definition py (s : string) : pystr := map N_of_ascii (list_ascii_of_string s).
Arguments py s%_string.

Fixpoint list_eqb {A : Type} (eqb : A -> A -> bool) (l1 l2 : list A) : bool :=
  match l1, l2 with
  | [], [] => true
  | x :: l1', y :: l2' => eqb x y && list_eqb eqb l1' l2'
  | _, _ => false
  end.

(** [s == t] on strings. *)
Definition str_eqb : pystr -> pystr -> bool := list_eqb N.eqb.

(** [l == m] on lists of strings. *)
Definition parts_eqb : list pystr -> list pystr -> bool := list_eqb str_eqb.

(** [l[i:j]] for [0 <= i]. *)
Definition slice {A : Type} (l : list A) (i j : nat) : list A :=
  firstn (j - i) (skipn i l).

(** [range(n)]. *)
Definition range (n : nat) : list nat := seq 0 n.

(** [s.split(sep)] for a separator of one character. *)
Fixpoint split (sep : N) (s : pystr) : list pystr :=
  match s with
  | [] => [[]]
  | c :: rest =>
      if N.eqb c sep then [] :: split sep rest
      else match split sep rest with
           | [] => [[c]]
           | part :: parts => (c :: part) :: parts
           end
  end.

(** [sep.join(parts)]. *)
Fixpoint join (sep : pystr) (parts : list pystr) : pystr :=
  match parts with
  | [] => []
  | [p] => p
  | p :: rest => p ++ sep ++ join sep rest
  end.

(** [s.startswith(prefix)]. *)
Fixpoint startswith (s prefix : pystr) : bool :=
  match prefix, s with
  | [], _ => true
  | p :: prefix', c :: s' => N.eqb c p && startswith s' prefix'
  | _ :: _, [] => false
  end.

(** [s.endswith(suffix)]. *)
Definition endswith (s suffix : pystr) : bool :=
  (length suffix <=? length s) &&
  str_eqb (skipn (length s - length suffix) s) suffix.

(** [str(n)] for a non-negative integer: its decimal digits. *)
Definition str_of_int (n : N) : pystr :=
  py (NilZero.string_of_uint (N.to_uint n)).

Definition os_sep : N := 47.   (* '/' *)
Definition slash : N := 47.    (* the literal '/' of the source *)
Definition dot : N := 46.      (* '.' *)

(* ================================================================= *)
(** * Exceptions *)

(** The exception classes the script distinguishes.  [OSError] stands for
    every subclass of [OSError] other than [PermissionError]
    ([FileNotFoundError], [NotADirectoryError], ...); [OtherException] for any
    other subclass of [Exception]. *)
Inductive exn_class :=
| UnicodeDecodeError
| PermissionError
| OSError
| ValueError
| OtherException.

Record exn := mkExn { exn_type : exn_class; exn_str : pystr }.

Inductive result (A : Type) :=
| Ok (a : A)
| Raise (e : exn).
Arguments Ok {A} a.
Arguments Raise {A} e.

Definition bind {A B : Type} (r : result A) (k : A -> result B) : result B :=
  match r with
  | Ok a => k a
  | Raise e => Raise e
  end.

Notation "x <- r ;; k" := (bind r (fun x => k))
  (at level 61, r at next level, right associativity).

(** [except PermissionError] (line 45). *)
Definition is_PermissionError (e : exn) : bool :=
  match exn_type e with
  | PermissionError => true
  | _ => false
  end.

(** [except (UnicodeDecodeError, PermissionError, OSError)] (line 134). *)
Definition is_read_error (e : exn) : bool :=
  match exn_type e with
  | UnicodeDecodeError | PermissionError | OSError => true
  | _ => false
  end.

(* ================================================================= *)
(** * The exclusion predicate *)

(** Lines 23-25: some excluded file is [rel_path], or [rel_path] ends with
    ['/'] followed by it.  The [for] loop that leaves with [return True] is
    an [existsb]. *)
Definition file_rule (exclude_files : list pystr) (rel_path : pystr) : bool :=
  existsb (fun exclude_file =>
             str_eqb rel_path exclude_file
             || endswith rel_path (slash :: exclude_file))
          exclude_files.

(** Lines 33-37: the window of [path_parts] that starts at some index [i]
    and has the length of [exclude_parts] is [exclude_parts]. *)
Definition window_match (path_parts exclude_parts : list pystr) : bool :=
  (length exclude_parts <=? length path_parts) &&
  existsb (fun i =>
             parts_eqb (slice path_parts i (i + length exclude_parts))
                       exclude_parts)
          (range (length path_parts - length exclude_parts + 1)).

(** Lines 28-37. *)
Definition folder_rule (exclude_folders : list pystr) (rel_path : pystr)
  : bool :=
  let path_parts := split os_sep rel_path in
  existsb (fun exclude_folder =>
             let exclude_parts := split slash exclude_folder in
             window_match path_parts exclude_parts)
          exclude_folders.

(** [should_exclude_path(path, repo_folder)] (lines 17-39).  The two
    observations it makes of [path] are its arguments here: [is_file] is
    [os.path.isfile(path)] and [rel_path] is
    [os.path.relpath(path, repo_folder)]. *)
Definition should_exclude_path (exclude_folders exclude_files : list pystr)
    (is_file : bool) (rel_path : pystr) : bool :=
  if is_file && file_rule exclude_files rel_path then true
  else folder_rule exclude_folders rel_path.

(* ================================================================= *)
(** * The content sanitizer *)

(** The character class [[\x00-\x08\x0b\x0c\x0e-\x1f\x7f-\x9f]] of line 128,
    as its list of inclusive ranges. *)
Definition control_class : list (N * N) :=
  [(0, 8); (11, 11); (12, 12); (14, 31); (127, 159)]%N.

Definition in_class (class : list (N * N)) (c : N) : bool :=
  existsb (fun r => (fst r <=? c)%N && (c <=? snd r)%N) class.

(** [re.sub(class, repl, s)] for a pattern that is one character class:
    every character of the class is replaced by [repl], the others are
    copied. *)
Fixpoint re_sub (class : list (N * N)) (repl s : pystr) : pystr :=
  match s with
  | [] => []
  | c :: rest =>
      if in_class class c then repl ++ re_sub class repl rest
      else c :: re_sub class repl rest
  end.

(** Line 128. *)
Definition sanitize (content : pystr) : pystr :=
  re_sub control_class [] content.

(* ================================================================= *)
(** * Language detection *)

(** [ext] of [os.path.splitext(p)]: the suffix of the base name that starts
    at its last dot, unless only dots precede that dot. *)
Fixpoint from_last_dot (s : pystr) : option pystr :=
  match s with
  | [] => None
  | c :: rest =>
      match from_last_dot rest with
      | Some ext => Some ext
      | None => if N.eqb c dot then Some s else None
      end
  end.

Definition splitext_ext (p : pystr) : pystr :=
  let base := last (split slash p) [] in
  match from_last_dot base with
  | None => []
  | Some ext =>
      if forallb (N.eqb dot) (firstn (length base - length ext) base)
      then [] else ext
  end.

(** [s.lower()], modelled on ASCII strings: the letters A-Z are shifted,
    the other code points are left as they are.  On a string that holds a
    code point above 127 [str.lower()] may differ (it maps U+212A to 'k',
    for one); the properties of the language are stated for ASCII
    names. *)
Definition lower (s : pystr) : pystr :=
  map (fun c => if (65 <=? c)%N && (c <=? 90)%N then (c + 32)%N else c) s.

(** The dictionary of lines 80-107. *)
Definition extension_to_language : list (pystr * pystr) :=
  [ (py ".py", py "python"); (py ".js", py "javascript");
    (py ".ts", py "typescript"); (py ".jsx", py "javascript");
    (py ".tsx", py "typescript"); (py ".java", py "java");
    (py ".cpp", py "cpp"); (py ".c", py "c"); (py ".cs", py "csharp");
    (py ".html", py "html"); (py ".css", py "css"); (py ".rb", py "ruby");
    (py ".php", py "php"); (py ".go", py "go"); (py ".rs", py "rust");
    (py ".swift", py "swift"); (py ".kt", py "kotlin"); (py ".sh", py "bash");
    (py ".md", py "markdown"); (py ".json", py "json"); (py ".xml", py "xml");
    (py ".yaml", py "yaml"); (py ".yml", py "yaml"); (py ".sql", py "sql");
    (py ".r", py "r"); (py ".scala", py "scala") ].

(** [d.get(key, default)]. *)
Fixpoint dict_get (d : list (pystr * pystr)) (key default : pystr) : pystr :=
  match d with
  | [] => default
  | (k, v) :: rest => if str_eqb k key then v else dict_get rest key default
  end.

(** Lines 79 and 109. *)
Definition language_of (item : pystr) : pystr :=
  dict_get extension_to_language (lower (splitext_ext item)) (py "text").

(* ================================================================= *)
(** * The file system *)

(** What the script can observe of a file: [os.path.getsize] and the text
    that [open(..., encoding='utf-8', errors='ignore')] followed by [read()]
    gives.  Either may raise. *)
Record file_io := mkFile {
  getsize : result N;
  read : result pystr }.

(** An entry of the tree under [repo_folder].
    - [RegularFile]: [os.path.isfile] holds.
    - [Special]: neither [os.path.isfile] nor [os.path.isdir] holds (a
      dangling symbolic link, a socket, a FIFO).
    - [Directory err items]: [os.path.isdir] holds.  [items] are the entries
      the directory contains, in the order [os.listdir] enumerates them;
      when [err] is [Some e], [os.listdir] raises [e] instead of returning
      their names. *)
Inductive entry :=
| RegularFile (f : file_io)
| Special (f : file_io)
| Directory (err : option exn) (items : list (pystr * entry)).

Definition isfile (e : entry) : bool :=
  match e with RegularFile _ => true | _ => false end.

Definition isdir (e : entry) : bool :=
  match e with Directory _ _ => true | _ => false end.

(** The entry a name denotes in a directory. *)
Fixpoint lookup (items : list (pystr * entry)) (name : pystr) : option entry :=
  match items with
  | [] => None
  | (n, e) :: rest => if str_eqb n name then Some e else lookup rest name
  end.

(** [os.path.relpath(item_path, repo_folder)], for the path made of
    [repo_folder] and the names [segments]. *)
Definition relpath (segments : list pystr) : pystr := join [os_sep] segments.

(* ================================================================= *)
(** * [sorted] *)

(** [s <= t] on strings: lexicographic on code points. *)
Fixpoint str_leb (s t : pystr) : bool :=
  match s, t with
  | [], _ => true
  | _ :: _, [] => false
  | a :: s', b :: t' =>
      if (a <? b)%N then true
      else if (a =? b)%N then str_leb s' t' else false
  end.

Fixpoint insert_sorted (x : pystr) (l : list pystr) : list pystr :=
  match l with
  | [] => [x]
  | y :: l' => if str_leb x y then x :: l else y :: insert_sorted x l'
  end.

(** [sorted(l)] on a list of strings (a stable sort). *)
Fixpoint sorted (l : list pystr) : list pystr :=
  match l with
  | [] => []
  | x :: l' => insert_sorted x (sorted l')
  end.

(* ================================================================= *)
(** * The output tree *)

(** The [directory] and [file] elements.  A file element has one [content]
    child, whose text is the last field. *)
Inductive xnode :=
| XDirectory (name path : pystr) (children : list xnode)
| XFile (name path language content : pystr).

Definition node_name (n : xnode) : pystr :=
  match n with XDirectory name _ _ => name | XFile name _ _ _ => name end.

Definition node_path (n : xnode) : pystr :=
  match n with XDirectory _ path _ => path | XFile _ path _ _ => path end.

Definition is_directory (n : xnode) : bool :=
  match n with XDirectory _ _ _ => true | XFile _ _ _ _ => false end.

(* ================================================================= *)
(** * The content loader *)

Definition size_limit : N := 10 * 1024 * 1024.

Definition too_large_text (file_size : N) : pystr :=
  py "[File too large: " ++ str_of_int file_size ++ py " bytes]".

Definition unreadable_text (e : exn) : pystr :=
  py "[Binary or unreadable file: " ++ exn_str e ++ py "]".

(** The handler of lines 134-138; an exception of another class
    propagates. *)
Definition on_read_error (e : exn) : result pystr :=
  if is_read_error e then Ok (unreadable_text e) else Raise e.

(** Lines 112-138: the text of the [content] element of a file. *)
Definition load_content (f : file_io) : result pystr :=
  match getsize f with
  | Raise e => on_read_error e
  | Ok file_size =>
      if (size_limit <? file_size)%N then Ok (too_large_text file_size)
      else match read f with
           | Raise e => on_read_error e
           | Ok content => Ok (sanitize content)
           end
  end.

Definition file_io_of (e : entry) : file_io :=
  match e with
  | RegularFile f | Special f => f
  | Directory _ _ =>
      mkFile (Raise (mkExn OSError (py "[Errno 21] Is a directory")))
             (Raise (mkExn OSError (py "[Errno 21] Is a directory")))
  end.

(* ================================================================= *)
(** * The recursive tree builder *)

Record rules := mkRules {
  exclude_folders : list pystr;
  exclude_files : list pystr }.

(** The [for item in items] loop: the elements each iteration appends to
    [parent_element], in order; an exception leaves the loop. *)
Fixpoint for_items (items : list pystr) (body : pystr -> result (list xnode))
  : result (list xnode) :=
  match items with
  | [] => Ok []
  | item :: rest =>
      here <- body item ;;
      more <- for_items rest body ;;
      Ok (here ++ more)
  end.

(** Lines 72-138: the [file] element of a non-directory entry. *)
Definition file_element (item : pystr) (item_path : list pystr) (e : entry)
  : result (list xnode) :=
  content <- load_content (file_io_of e) ;;
  Ok [XFile item (relpath item_path) (language_of item) content].

(** [build_structure_xml(parent_element, path)] (lines 41-138).  [path] is
    the list of names that leads from [repo_folder] to the directory [d];
    the result is the list of children appended to [parent_element].  The
    entry [item_path] denotes is found by name in the listed directory. *)
Fixpoint build_structure_xml (r : rules) (path : list pystr) (d : entry)
  : result (list xnode) :=
  match d with
  | Directory (Some e) _ =>
      if is_PermissionError e then Ok [] else Raise e
  | Directory None entries =>
      for_items (sorted (map fst entries)) (fun item =>
        if startswith item [dot] then Ok []
        else
          let item_path := path ++ [item] in
          (fix at_item_path (its : list (pystr * entry)) : result (list xnode) :=
             match its with
             | [] => Ok []
             | (n, child) :: rest =>
                 if str_eqb n item then
                   if should_exclude_path (exclude_folders r) (exclude_files r)
                        (isfile child) (relpath item_path)
                   then Ok []
                   else if isdir child then
                     children <- build_structure_xml r item_path child ;;
                     Ok [XDirectory item (relpath item_path) children]
                   else file_element item item_path child
                 else at_item_path rest
             end) entries)
  | _ => Raise (mkExn OSError (py "[Errno 20] Not a directory"))
  end.

(** One iteration of the loop (lines 51-138) on the entry [child] that
    [item] names. *)
Definition process_item (r : rules) (path : list pystr) (item : pystr)
    (child : entry) : result (list xnode) :=
  let item_path := path ++ [item] in
  if should_exclude_path (exclude_folders r) (exclude_files r)
       (isfile child) (relpath item_path)
  then Ok []
  else if isdir child then
    children <- build_structure_xml r item_path child ;;
    Ok [XDirectory item (relpath item_path) children]
  else file_element item item_path child.
(** A name is hidden when it begins with a dot. *)
Definition hidden (name : pystr) : bool := startswith name [dot].

(** The body of the loop of [build_structure_xml], with the entry found by
    [lookup]. *)
Definition loop_body (r : rules) (path : list pystr)
    (entries : list (pystr * entry)) (item : pystr) : result (list xnode) :=
  if hidden item then Ok []
  else match lookup entries item with
       | Some child => process_item r path item child
       | None => Ok []
       end.

(* ================================================================= *)
(** * The document and the pipeline *)

(** The [repository] element: its attributes and the children of its
    [structure] element.  [excluded_folders] and [excluded_files] are set
    only for a non-empty list (lines 154-157). *)
Record document := mkDocument {
  doc_source_path : pystr;
  doc_name : pystr;
  doc_excluded_folders : option pystr;
  doc_excluded_files : option pystr;
  doc_structure : list xnode }.

(** [os.path.basename(p)]. *)
Definition basename (p : pystr) : pystr := last (split slash p) [].

(** [s.rstrip('/')]. *)
Fixpoint rstrip_slash (s : pystr) : pystr :=
  match s with
  | [] => []
  | c :: rest =>
      match rstrip_slash rest with
      | [] => if N.eqb c slash then [] else [c]
      | rest' => c :: rest'
      end
  end.

(** [os.path.dirname(p)]. *)
Definition dirname (p : pystr) : pystr :=
  match removelast (split slash p) with
  | [] => []
  | head_parts =>
      let head := join [slash] head_parts ++ [slash] in
      if forallb (N.eqb slash) head then head else rstrip_slash head
  end.

(** [c.isspace()]. *)
Definition isspace (c : N) : bool :=
  in_class [(9, 13); (28, 32); (133, 133); (160, 160); (5760, 5760);
            (8192, 8202); (8232, 8233); (8239, 8239); (8287, 8287);
            (12288, 12288)]%N c.

(** The truth value of [line.strip()]: some character is not white
    space. *)
Definition strip_nonempty (line : pystr) : bool :=
  existsb (fun c => negb (isspace c)) line.

(** Lines 182-183. *)
Definition remove_empty_lines (pretty_xml : pystr) : pystr :=
  join [10%N] (filter strip_nonempty (split 10%N pretty_xml)).

(** What the script finds at [repo_folder] and at [output_path].
    [repo_entry] is [None] when [repo_folder] does not exist; the two other
    fields tell whether [os.makedirs] and [open(output_path, 'w')] raise. *)
Record world := mkWorld {
  repo_entry : option entry;
  makedirs_raises : option exn;
  open_output_raises : option exn }.

(** What a run leaves: the value returned or the exception raised, and the
    text written to [output_path] ([None] when the file was not written). *)
Record outcome (A : Type) := mkOutcome {
  returned : result A;
  written : option pystr }.
Arguments mkOutcome {A} returned written.
Arguments returned {A} o.
Arguments written {A} o.

Definition or_default (l : option (list pystr)) : list pystr :=
  match l with None => [] | Some l => l end.

Definition attribute_of (l : list pystr) : option pystr :=
  match l with [] => None | _ => Some (join (py ", ") l) end.

(** [raise] when the operation fails. *)
Definition check (failure : option exn) : result unit :=
  match failure with None => Ok tt | Some e => Raise e end.

(** Lines 150-164: the document of the directory [e] at [repo_folder].
    The source path recorded is [os.path.abspath(repo_folder)]; it is
    [repo_folder] itself for the absolute, normalised path that [main]
    passes, and the field is modelled for such a path only.  The name is
    [os.path.basename] of [repo_folder] as it was given. *)
Definition document_of (e : entry) (repo_folder : pystr) (r : rules)
  : result document :=
  structure <- build_structure_xml r [] e ;;
  Ok (mkDocument repo_folder (basename repo_folder)
        (attribute_of (exclude_folders r))
        (attribute_of (exclude_files r)) structure).

(** Line 142. *)
Definition not_a_valid_directory (repo_folder : pystr) : exn :=
  mkExn ValueError
    (py "The provided path '" ++ repo_folder ++ py "' is not a valid directory.").

Section Pipeline.

(** [ET.tostring], [minidom.parseString] and [toprettyxml] (lines
    177-179) are library code: their composition is a parameter, which may
    raise. *)
Variable toprettyxml : document -> result pystr.

(** Lines 140-187: the text written to [output_path]. *)
Definition final_xml_of (w : world) (repo_folder output_path : pystr)
    (r : rules) : result pystr :=
  match repo_entry w with
  | None => Raise (not_a_valid_directory repo_folder)
  | Some e =>
      if negb (isdir e) then Raise (not_a_valid_directory repo_folder)
      else
        root <- document_of e repo_folder r ;;
        let output_dir := dirname output_path in
        _ <- (if str_eqb output_dir [] then Ok tt
              else check (makedirs_raises w)) ;;
        pretty_xml <- toprettyxml root ;;
        let final_xml := remove_empty_lines pretty_xml in
        _ <- check (open_output_raises w) ;;
        Ok final_xml
  end.

(** [describe_repo_contents_xml] (lines 8-194).  The handler of lines
    192-194 prints and raises the exception again. *)
Definition describe_repo_contents_xml (w : world)
    (repo_folder output_path : pystr)
    (exclude_folders exclude_files : option (list pystr))
  : outcome pystr :=
  let r := mkRules (or_default exclude_folders) (or_default exclude_files) in
  match final_xml_of w repo_folder output_path r with
  | Ok final_xml => mkOutcome (Ok output_path) (Some final_xml)
  | Raise e => mkOutcome (Raise e) None
  end.

(** [main] (lines 196-231), after [argparse] and [os.path.abspath]: the
    exit status and the text written. *)
Definition main (w : world) (source_path output_path : pystr)
    (exclude exclude_files : list pystr) : outcome N :=
  match repo_entry w with
  | None => mkOutcome (Ok 1%N) None
  | Some e =>
      if negb (isdir e) then mkOutcome (Ok 1%N) None
      else
        let o := describe_repo_contents_xml w source_path output_path
                   (Some exclude) (Some exclude_files) in
        match returned o with
        | Ok _ => mkOutcome (Ok 0%N) (written o)
        | Raise _ => mkOutcome (Ok 1%N) (written o)
        end
  end.

End Pipeline.

(* ================================================================= *)
(** * Notions used by the specifications *)

(** Every node of a tree: a node, then the nodes below it. *)
Fixpoint subtree (n : xnode) : list xnode :=
  n :: match n with
       | XDirectory _ _ children => flat_map subtree children
       | XFile _ _ _ _ => []
       end.

Definition all_nodes (tree : list xnode) : list xnode := flat_map subtree tree.

(** [parts] contains the contiguous run [run]. *)
Definition contains_run (parts run : list pystr) : Prop :=
  exists before after, parts = before ++ run ++ after.

(** Some excluded-folder pattern, split on '/', is a contiguous run of the
    segments of [rel_path]. *)
Definition folder_pattern_matches (exclude_folders : list pystr)
    (rel_path : pystr) : Prop :=
  exists pattern,
    In pattern exclude_folders /\
    contains_run (split os_sep rel_path) (split slash pattern).

(** [rel_path] is some excluded file, or ends with the path separator
    followed by it. *)
Definition file_pattern_matches (exclude_files : list pystr)
    (rel_path : pystr) : Prop :=
  exists pattern,
    In pattern exclude_files /\
    (rel_path = pattern \/ exists front, rel_path = front ++ os_sep :: pattern).

(** The control characters: U+0000-U+001F and U+007F-U+009F. *)
Definition is_control (c : N) : bool :=
  (c <=? 31)%N || ((127 <=? c)%N && (c <=? 159)%N).

(** The characters the sanitizer is to keep: tab, newline, carriage return
    and every character that is not a control character. *)
Definition allowed_char (c : N) : bool :=
  (c =? 9)%N || (c =? 10)%N || (c =? 13)%N || negb (is_control c).

(** The entry that the names [segments] lead to from [d]. *)
Fixpoint resolve (d : entry) (segments : list pystr) : option entry :=
  match segments with
  | [] => Some d
  | name :: rest =>
      match d with
      | Directory _ items =>
          match lookup items name with
          | Some child => resolve child rest
          | None => None
          end
      | _ => None
      end
  end.

(** The entry [e], which [item] names at the relative path [item_path], is
    neither hidden nor excluded. *)
Definition included (r : rules) (item_path : list pystr) (item : pystr)
    (e : entry) : bool :=
  negb (hidden item) &&
  negb (should_exclude_path (exclude_folders r) (exclude_files r)
          (isfile e) (relpath item_path)).

(** The traversal of [d], which sits at [path], comes to the entry that
    [segments] lead to: [d] and every directory on the way can be listed,
    and every directory on the way is included. *)
Fixpoint visits (r : rules) (path : list pystr) (d : entry)
    (segments : list pystr) : bool :=
  match segments with
  | [] => false
  | name :: rest =>
      match d with
      | Directory None items =>
          match lookup items name with
          | Some child =>
              match rest with
              | [] => true
              | _ => included r (path ++ [name]) name child
                     && isdir child
                     && visits r (path ++ [name]) child rest
              end
          | None => false
          end
      | _ => false
      end
  end.



(** No directory of the tree holds two entries of the same name. *)
Fixpoint distinct_names (e : entry) : Prop :=
  match e with
  | Directory _ items =>
      NoDup (map fst items) /\
      (fix all (its : list (pystr * entry)) : Prop :=
         match its with
         | [] => True
         | (_, child) :: rest => distinct_names child /\ all rest
         end) items
  | _ => True
  end.

(** No name of the tree contains the path separator. *)
Fixpoint valid_names (e : entry) : Prop :=
  match e with
  | Directory _ items =>
      (fix all (its : list (pystr * entry)) : Prop :=
         match its with
         | [] => True
         | (name, child) :: rest =>
             ~ In os_sep name /\ valid_names child /\ all rest
         end) items
  | _ => True
  end.





(** The same tree, with the entries of each directory enumerated in another
    order: [order path] rearranges the entries of the directory at
    [path]. *)
Fixpoint reorder
    (order : list pystr -> list (pystr * entry) -> list (pystr * entry))
    (path : list pystr) (e : entry) : entry :=
  match e with
  | Directory err items =>
      Directory err
        (order path
           (map (fun p => match p with
                          | (name, child) =>
                              (name, reorder order (path ++ [name]) child)
                          end) items))
  | _ => e
  end.

Definition reorder_world
    (order : list pystr -> list (pystr * entry) -> list (pystr * entry))
    (w : world) : world :=
  mkWorld (option_map (reorder order []) (repo_entry w))
          (makedirs_raises w) (open_output_raises w).

(** Induction on the tree: a property holds of a directory as soon as it
    holds of the entries the directory contains. *)
Fixpoint entry_induction (P : entry -> Prop)
    (Hfile : forall f, P (RegularFile f))
    (Hspecial : forall f, P (Special f))
    (Hdir : forall err items,
        Forall (fun p => P (snd p)) items -> P (Directory err items))
    (e : entry) : P e :=
  match e with
  | RegularFile f => Hfile f
  | Special f => Hspecial f
  | Directory err items =>
      Hdir err items
        ((fix each (its : list (pystr * entry))
            : Forall (fun p => P (snd p)) its :=
            match its with
            | [] => Forall_nil _
            | (name, child) :: rest =>
                Forall_cons (name, child)
                  (entry_induction P Hfile Hspecial Hdir child) (each rest)
            end) items)
  end.

(** A small tree to run the pipeline on. *)
Definition text_file (content : pystr) : entry :=
  RegularFile (mkFile (Ok (N.of_nat (length content))) (Ok content)).

Definition permission_denied : exn :=
  mkExn PermissionError (py "[Errno 13] Permission denied").

Definition io_error : exn :=
  mkExn OSError (py "[Errno 5] Input/output error").

Definition sample_root : entry :=
  Directory None
    [ (py "sub", Directory None [(py "b.txt", text_file (py "hi"))]);
      (py "a.py", text_file (py "x=1"));
      (py ".git", Directory None [(py "config", text_file (py "c"))]);
      (py "locked",
       Directory (Some permission_denied) [(py "x.txt", text_file (py "s"))]);
      (py "secret.env", text_file (py "k=v"));
      (py "docs", Directory None [(py "x.md", text_file (py "# x"))]);
      (py "broken", RegularFile (mkFile (Ok 3%N) (Raise io_error))) ].

Definition sample_world : world := mkWorld (Some sample_root) None None.

(** A renderer to run the pipeline on examples: one line for each node,
    holding its path. *)
Definition paths_renderer (d : document) : result pystr :=
  Ok (join [10%N] (map node_path (all_nodes (doc_structure d)))).

(* ================================================================= *)
(** * Notions used by the properties of the tree *)

(** The names of the nodes are in the order of [str_leb]. *)
Definition names_sorted (nodes : list xnode) : Prop :=
  StronglySorted (fun a b => str_leb a b = true) (map node_name nodes).

(** The node [n], a child of the directory at [path], is as the builder
    makes it: its path is the path of its parent followed by its name, the
    language of a file is the one of its name, and the children of a
    directory are in the order of their names and are as the builder makes
    them. *)
Fixpoint shaped (path : list pystr) (n : xnode) : Prop :=
  match n with
  | XFile name p language _ =>
      p = relpath (path ++ [name]) /\ language = language_of name
  | XDirectory name p children =>
      p = relpath (path ++ [name]) /\
      names_sorted children /\
      (fix each (l : list xnode) : Prop :=
         match l with
         | [] => True
         | child :: rest => shaped (path ++ [name]) child /\ each rest
         end) children
  end.

(** Induction on the nodes of the output tree. *)
Fixpoint xnode_induction (P : xnode -> Prop)
    (Hfile : forall name path language content,
        P (XFile name path language content))
    (Hdir : forall name path children,
        Forall P children -> P (XDirectory name path children))
    (n : xnode) : P n :=
  match n with
  | XFile name path language content => Hfile name path language content
  | XDirectory name path children =>
      Hdir name path children
        ((fix each (l : list xnode) : Forall P l :=
            match l with
            | [] => Forall_nil _
            | child :: rest =>
                Forall_cons child (xnode_induction P Hfile Hdir child)
                  (each rest)
            end) children)
  end.

(** The rules [r'] exclude at least what [r] excludes. *)
Definition rules_extend (r r' : rules) : Prop :=
  incl (exclude_folders r) (exclude_folders r') /\
  incl (exclude_files r) (exclude_files r').

(* ================================================================= *)
(** * The string operations and the predicate on examples *)

Example split_ex1 : split slash (py "components/ui") = [py "components"; py "ui"].
Proof. reflexivity. Qed.
Example split_ex2 : split slash (py "utils/") = [py "utils"; []].
Proof. reflexivity. Qed.
Example split_ex3 : split slash [] = [[]].
Proof. reflexivity. Qed.
Example excl_ex1 :
  should_exclude_path [py "b/c"] [] false (py "a/b/c/d") = true.
Proof. reflexivity. Qed.
Example excl_ex2 :
  should_exclude_path [py "b/c"] [] false (py "a/b/x/c") = false.
Proof. reflexivity. Qed.
Example excl_ex3 :
  should_exclude_path [] [py "x.md"] true (py "docs/x.md") = true.
Proof. reflexivity. Qed.
Example excl_ex4 :
  should_exclude_path [] [py "x.md"] true (py "docs/ax.md") = false.
Proof. reflexivity. Qed.
Example str_ex : str_of_int 10485761 = py "10485761".
Proof. reflexivity. Qed.
Example str_ex0 : str_of_int 0 = py "0".
Proof. reflexivity. Qed.

(* ================================================================= *)
(** * Equality tests *)

Lemma list_eqb_spec (A : Type) (eqb : A -> A -> bool) :
  (forall x y, eqb x y = true <-> x = y) ->
  forall l m, list_eqb eqb l m = true <-> l = m.
Proof.
  intros Heqb l. induction l as [|x l IH]; intros [|y m]; simpl;
    try (split; [discriminate | discriminate]); try tauto.
  rewrite andb_true_iff, Heqb, IH. split.
  - intros [-> ->]. reflexivity.
  - intros H. inversion H. auto.
Qed.

Lemma str_eqb_eq s t : str_eqb s t = true <-> s = t.
Proof. apply list_eqb_spec. intros x y. apply N.eqb_eq. Qed.

Lemma str_eqb_refl s : str_eqb s s = true.
Proof. apply str_eqb_eq. reflexivity. Qed.

Lemma str_eqb_neq s t : str_eqb s t = false <-> s <> t.
Proof.
  rewrite <- str_eqb_eq. destruct (str_eqb s t); split; congruence.
Qed.

Lemma parts_eqb_eq l m : parts_eqb l m = true <-> l = m.
Proof. apply list_eqb_spec. apply str_eqb_eq. Qed.

(* ================================================================= *)
(** * [endswith] and [startswith] *)

Lemma endswith_spec s suffix :
  endswith s suffix = true <-> exists front, s = front ++ suffix.
Proof.
  unfold endswith. rewrite andb_true_iff, Nat.leb_le, str_eqb_eq. split.
  - intros [_ H]. exists (firstn (length s - length suffix) s).
    set (k := length s - length suffix) in *.
    rewrite <- H. symmetry. apply firstn_skipn.
  - intros [front ->]. rewrite length_app. split; [lia|].
    replace (length front + length suffix - length suffix)
      with (length front + 0) by lia.
    rewrite skipn_app, Nat.add_0_r, skipn_all.
    replace (length front - length front) with 0 by lia. reflexivity.
Qed.

Lemma hidden_cons c name : hidden (c :: name) = N.eqb c dot.
Proof. unfold hidden. simpl. destruct name; apply andb_true_r. Qed.

(* ================================================================= *)
(** * The sliding window *)

Lemma slice_spec (A : Type) (before run after : list A) :
  slice (before ++ run ++ after) (length before) (length before + length run)
  = run.
Proof.
  unfold slice.
  replace (length before + length run - length before) with (length run)
    by lia.
  rewrite skipn_app, skipn_all, Nat.sub_diag. simpl.
  rewrite firstn_app, firstn_all, Nat.sub_diag. simpl. apply app_nil_r.
Qed.

Lemma window_match_spec path_parts exclude_parts :
  window_match path_parts exclude_parts = true
  <-> contains_run path_parts exclude_parts.
Proof.
  unfold window_match, contains_run.
  rewrite andb_true_iff, Nat.leb_le, existsb_exists. split.
  - intros [Hlen [i [Hi Heq]]]. apply parts_eqb_eq in Heq.
    unfold range in Hi. apply in_seq in Hi. unfold slice in Heq.
    exists (firstn i path_parts),
      (skipn (length exclude_parts) (skipn i path_parts)).
    replace (i + length exclude_parts - i) with (length exclude_parts)
      in Heq by lia.
    rewrite <- Heq at 1. rewrite firstn_skipn, firstn_skipn. reflexivity.
  - intros [before [after ->]]. rewrite !length_app. split; [lia|].
    exists (length before). split.
    + unfold range. apply in_seq. lia.
    + apply parts_eqb_eq. apply slice_spec.
Qed.

Lemma contains_run_app_r parts more run :
  contains_run parts run -> contains_run (parts ++ more) run.
Proof.
  intros [before [after ->]]. exists before, (after ++ more).
  rewrite <- !app_assoc. reflexivity.
Qed.

Lemma folder_rule_spec exclude_folders rel_path :
  folder_rule exclude_folders rel_path = true
  <-> folder_pattern_matches exclude_folders rel_path.
Proof.
  unfold folder_rule, folder_pattern_matches. rewrite existsb_exists.
  split; intros [pattern [Hin H]]; exists pattern; split; auto;
    apply window_match_spec; exact H.
Qed.

Lemma file_rule_spec exclude_files rel_path :
  file_rule exclude_files rel_path = true
  <-> file_pattern_matches exclude_files rel_path.
Proof.
  unfold file_rule, file_pattern_matches. rewrite existsb_exists.
  split; intros [pattern [Hin H]]; exists pattern; split; auto.
  - apply orb_true_iff in H. destruct H as [H|H].
    + left. apply str_eqb_eq. exact H.
    + right. apply endswith_spec in H. exact H.
  - apply orb_true_iff. destruct H as [H|H].
    + left. apply str_eqb_eq. exact H.
    + right. apply endswith_spec. exact H.
Qed.

Lemma should_exclude_path_spec folders files is_file rel_path :
  should_exclude_path folders files is_file rel_path = true
  <-> (is_file = true /\ file_pattern_matches files rel_path)
      \/ folder_pattern_matches folders rel_path.
Proof.
  unfold should_exclude_path.
  rewrite <- file_rule_spec, <- folder_rule_spec.
  destruct is_file, (file_rule files rel_path),
    (folder_rule folders rel_path); simpl; intuition congruence.
Qed.

(* ================================================================= *)
(** * [split] and [join] *)

Lemma split_not_nil sep s : split sep s <> [].
Proof.
  destruct s as [|c rest]; simpl; [discriminate|].
  destruct (N.eqb c sep); [discriminate|].
  destruct (split sep rest); discriminate.
Qed.

Lemma split_app_sep sep a b :
  split sep (a ++ sep :: b) = split sep a ++ split sep b.
Proof.
  induction a as [|c a IH]; simpl.
  - rewrite N.eqb_refl. reflexivity.
  - destruct (N.eqb c sep); [rewrite IH; reflexivity|].
    rewrite IH. pose proof (split_not_nil sep a) as Hne.
    destruct (split sep a); [contradiction|]. reflexivity.
Qed.

Lemma join_cons sep p rest :
  rest <> [] -> join sep (p :: rest) = p ++ sep ++ join sep rest.
Proof. destruct rest; [contradiction|reflexivity]. Qed.

Lemma join_app sep a b :
  a <> [] -> b <> [] -> join sep (a ++ b) = join sep a ++ sep ++ join sep b.
Proof.
  intros Ha Hb. induction a as [|p a IH]; [contradiction|].
  destruct a as [|q a].
  - simpl app at 1. rewrite join_cons by exact Hb. reflexivity.
  - change ((p :: q :: a) ++ b) with (p :: (q :: a) ++ b).
    rewrite join_cons by discriminate.
    rewrite IH by discriminate.
    rewrite (@join_cons sep p (q :: a)) by discriminate.
    rewrite <- !app_assoc. reflexivity.
Qed.

Lemma split_relpath_app segments more :
  segments <> [] -> more <> [] ->
  split os_sep (relpath (segments ++ more))
  = split os_sep (relpath segments) ++ split os_sep (relpath more).
Proof.
  intros Hs Hm. unfold relpath. rewrite join_app by assumption.
  simpl. apply split_app_sep.
Qed.

Lemma split_no_sep sep s :
  ~ In sep s -> split sep s = [s].
Proof.
  induction s as [|c s IH]; simpl; intros Hnot; [reflexivity|].
  destruct (N.eqb_spec c sep) as [->|Hne]; [tauto|].
  rewrite IH by tauto. reflexivity.
Qed.

Lemma split_join sep segments :
  segments <> [] ->
  Forall (fun name => ~ In sep name) segments ->
  split sep (join [sep] segments) = segments.
Proof.
  induction segments as [|p rest IH]; [contradiction|].
  intros _ Hall. inversion Hall as [|? ? Hp Hrest]; subst.
  destruct rest as [|q rest].
  - simpl. apply split_no_sep. exact Hp.
  - rewrite join_cons by discriminate.
    change (p ++ [sep] ++ join [sep] (q :: rest))
      with (p ++ sep :: join [sep] (q :: rest)).
    rewrite split_app_sep, IH by (discriminate || assumption).
    rewrite split_no_sep by exact Hp. reflexivity.
Qed.

(* ================================================================= *)
(** * The sanitizer *)

Ltac decide_comparisons :=
  repeat match goal with
  | |- context [(?a <=? ?b)%N] =>
      first [ replace (a <=? b)%N with true
                by (symmetry; apply N.leb_le; lia)
            | replace (a <=? b)%N with false
                by (symmetry; apply N.leb_gt; lia) ]
  | |- context [(?a =? ?b)%N] =>
      first [ replace (a =? b)%N with true
                by (symmetry; apply N.eqb_eq; lia)
            | replace (a =? b)%N with false
                by (symmetry; apply N.eqb_neq; lia) ]
  end.

Lemma control_class_allowed c :
  in_class control_class c = negb (allowed_char c).
Proof.
  unfold in_class, control_class, allowed_char, is_control. simpl.
  assert (c <= 8 \/ c = 9 \/ c = 10 \/ c = 11 \/ c = 12 \/ c = 13 \/
          (14 <= c <= 31) \/ (32 <= c <= 126) \/ (127 <= c <= 159) \/
          160 <= c)%N as Hc by lia.
  repeat (destruct Hc as [Hc|Hc]); decide_comparisons; reflexivity.
Qed.

Lemma sanitize_filter s : sanitize s = filter allowed_char s.
Proof.
  unfold sanitize. induction s as [|c s IH]; [reflexivity|].
  cbn [re_sub filter]. rewrite control_class_allowed, IH.
  destruct (allowed_char c); reflexivity.
Qed.

Lemma filter_all_true (A : Type) (f : A -> bool) l :
  forallb f l = true -> filter f l = l.
Proof.
  induction l as [|x l IH]; simpl; [reflexivity|].
  intros H. apply andb_true_iff in H. destruct H as [Hx Hl].
  rewrite Hx, IH by exact Hl. reflexivity.
Qed.

(** C4.  The sanitizer leaves a text of allowed characters (tab, newline,
    carriage return and every character that is not a control character) as
    it is, and from any text it removes the other characters and only them:
    what remains is the allowed characters of the text, in their order. *)
Theorem sanitize_strips_exactly_the_disallowed :
  (forall content, forallb allowed_char content = true ->
                   sanitize content = content) /\
  (forall content, sanitize content = filter allowed_char content).
Proof.
  split.
  - intros content H. rewrite sanitize_filter. apply filter_all_true, H.
  - apply sanitize_filter.
Qed.

Lemma sanitize_strips_exactly_the_disallowed_witness :
  sanitize (py "x=1") = py "x=1".
Proof.
  apply (proj1 sanitize_strips_exactly_the_disallowed). reflexivity.
Defined.

(* ================================================================= *)
(** * The content loader *)

Lemma file_element_content item item_path e content :
  load_content (file_io_of e) = Ok content ->
  file_element item item_path e
  = Ok [XFile item (relpath item_path) (language_of item) content].
Proof. unfold file_element. intros ->. reflexivity. Qed.

(** C3.  A file whose size is exactly 10*1024*1024 bytes is read, and the
    sanitized text is the content of its file node; a file whose size is
    greater, be it by one byte, gets the text that reports its size, whatever
    reading it would give. *)
Theorem size_guard_boundary :
  forall (item : pystr) (item_path : list pystr) (e : entry) (file_size : N),
    isdir e = false ->
    getsize (file_io_of e) = Ok file_size ->
    (file_size = (10 * 1024 * 1024)%N ->
     forall content, read (file_io_of e) = Ok content ->
       file_element item item_path e
       = Ok [XFile item (relpath item_path) (language_of item)
               (sanitize content)])
    /\
    ((10 * 1024 * 1024 < file_size)%N ->
     file_element item item_path e
     = Ok [XFile item (relpath item_path) (language_of item)
             (py "[File too large: " ++ str_of_int file_size ++ py " bytes]")]).
Proof.
  intros item item_path e file_size _ Hsize. split.
  - intros -> content Hread. apply file_element_content.
    unfold load_content. rewrite Hsize, Hread. reflexivity.
  - intros Hlt. apply file_element_content.
    unfold load_content. rewrite Hsize.
    change size_limit with (10 * 1024 * 1024)%N.
    apply N.ltb_lt in Hlt. rewrite Hlt. reflexivity.
Qed.

Lemma size_guard_boundary_witness :
  file_element (py "a.py") [py "a.py"]
    (RegularFile (mkFile (Ok 10485760%N) (Ok (py "x=1"))))
  = Ok [XFile (py "a.py") (py "a.py") (py "python") (py "x=1")]
  /\
  file_element (py "a.py") [py "a.py"]
    (RegularFile (mkFile (Ok 10485761%N) (Ok (py "x=1"))))
  = Ok [XFile (py "a.py") (py "a.py") (py "python")
          (py "[File too large: 10485761 bytes]")].
Proof.
  split.
  - exact (proj1 (@size_guard_boundary (py "a.py") [py "a.py"]
                    (RegularFile (mkFile (Ok 10485760%N) (Ok (py "x=1"))))
                    10485760%N eq_refl eq_refl)
             eq_refl (py "x=1") eq_refl).
  - exact (proj2 (@size_guard_boundary (py "a.py") [py "a.py"]
                    (RegularFile (mkFile (Ok 10485761%N) (Ok (py "x=1"))))
                    10485761%N eq_refl eq_refl)
             eq_refl).
Defined.

(* ================================================================= *)
(** * The loop over the items *)

Lemma for_items_ext items body body' :
  (forall item, In item items -> body item = body' item) ->
  for_items items body = for_items items body'.
Proof.
  induction items as [|item rest IH]; intros H; simpl; [reflexivity|].
  rewrite H by (left; reflexivity).
  rewrite IH by (intros; apply H; right; assumption). reflexivity.
Qed.

Lemma for_items_ok_inv item rest body tree :
  for_items (item :: rest) body = Ok tree ->
  exists here more,
    body item = Ok here /\ for_items rest body = Ok more /\
    tree = here ++ more.
Proof.
  simpl. unfold bind. destruct (body item) as [here|]; [|discriminate].
  destruct (for_items rest body) as [more|]; [|discriminate].
  intros H. inversion H. exists here, more. auto.
Qed.

(** A child of the parent element was appended by some iteration. *)
Lemma for_items_origin items body tree n :
  for_items items body = Ok tree -> In n tree ->
  exists item here, In item items /\ body item = Ok here /\ In n here.
Proof.
  revert tree. induction items as [|item rest IH]; intros tree H Hin.
  - inversion H. subst. contradiction.
  - apply for_items_ok_inv in H.
    destruct H as [here [more [Hb [Hr ->]]]].
    apply in_app_or in Hin. destruct Hin as [Hin|Hin].
    + exists item, here. simpl. auto.
    + destruct (IH more Hr Hin) as [item' [here' [? [? ?]]]].
      exists item', here'. simpl. auto.
Qed.

(** What an iteration appends is in the parent element at the end. *)
Lemma for_items_keeps items body tree item :
  for_items items body = Ok tree -> In item items ->
  exists here, body item = Ok here /\ incl here tree.
Proof.
  revert tree. induction items as [|item' rest IH]; intros tree H Hin;
    [contradiction|].
  apply for_items_ok_inv in H. destruct H as [here [more [Hb [Hr ->]]]].
  destruct Hin as [->|Hin].
  - exists here. split; [exact Hb|]. apply incl_appl, incl_refl.
  - destruct (IH more Hr Hin) as [here' [? ?]].
    exists here'. split; [assumption|]. apply incl_appr. assumption.
Qed.


(* ================================================================= *)
(** * Nodes of a tree *)

Lemma all_nodes_app t1 t2 : all_nodes (t1 ++ t2) = all_nodes t1 ++ all_nodes t2.
Proof. unfold all_nodes. apply flat_map_app. Qed.

Lemma subtree_self n : In n (subtree n).
Proof. destruct n; left; reflexivity. Qed.

Lemma all_nodes_incl t1 t2 : incl t1 t2 -> incl (all_nodes t1) (all_nodes t2).
Proof.
  intros H n Hn. unfold all_nodes in *. apply in_flat_map in Hn.
  destruct Hn as [m [Hm Hn]]. apply in_flat_map. exists m. auto.
Qed.

Lemma all_nodes_top tree n : In n tree -> In n (all_nodes tree).
Proof.
  intros H. unfold all_nodes. apply in_flat_map. exists n.
  split; [assumption | apply subtree_self].
Qed.

Lemma all_nodes_directory name path children n :
  In n (all_nodes [XDirectory name path children]) <->
  n = XDirectory name path children \/ In n (all_nodes children).
Proof.
  unfold all_nodes. simpl. rewrite app_nil_r. split.
  - intros [H|H]; [left; symmetry; exact H | right; exact H].
  - intros [H|H]; [left; symmetry; exact H | right; exact H].
Qed.

Lemma all_nodes_file name path language content n :
  In n (all_nodes [XFile name path language content]) <->
  n = XFile name path language content.
Proof.
  unfold all_nodes. simpl. split.
  - intros [H|[]]. symmetry. exact H.
  - intros H. left. symmetry. exact H.
Qed.

(* ================================================================= *)
(** * Looking an item up *)

Lemma lookup_in items name e :
  lookup items name = Some e -> In (name, e) items.
Proof.
  induction items as [|[n c] rest IH]; simpl; [discriminate|].
  destruct (str_eqb n name) eqn:Hn.
  - intros H. inversion H. subst. apply str_eqb_eq in Hn. subst. auto.
  - auto.
Qed.

Lemma lookup_listed items name :
  In name (map fst items) -> exists e, lookup items name = Some e.
Proof.
  induction items as [|[n c] rest IH]; simpl; [contradiction|].
  intros H. destruct (str_eqb n name) eqn:Hn.
  - exists c. reflexivity.
  - apply str_eqb_neq in Hn. destruct H as [H|H]; [contradiction|]. auto.
Qed.

Lemma lookup_some_listed items name e :
  lookup items name = Some e -> In name (map fst items).
Proof.
  intros H. apply lookup_in in H.
  change name with (fst (name, e)). apply in_map. exact H.
Qed.

(* ================================================================= *)
(** * [sorted] *)

Lemma str_leb_refl s : str_leb s s = true.
Proof.
  induction s as [|a s IH]; simpl; [reflexivity|].
  rewrite N.ltb_irrefl, N.eqb_refl. exact IH.
Qed.

Lemma str_leb_total s t : str_leb s t = true \/ str_leb t s = true.
Proof.
  revert t. induction s as [|a s IH]; intros [|b t]; simpl; auto.
  destruct (N.ltb_spec a b), (N.ltb_spec b a); auto; try lia.
  assert (a = b) as -> by lia. rewrite N.eqb_refl. apply IH.
Qed.

Lemma str_leb_antisym s t :
  str_leb s t = true -> str_leb t s = true -> s = t.
Proof.
  revert t. induction s as [|a s IH]; intros [|b t]; simpl;
    try discriminate; [reflexivity|].
  destruct (N.ltb_spec a b), (N.ltb_spec b a); try lia.
  - destruct (N.eqb_spec b a); [lia | discriminate].
  - destruct (N.eqb_spec a b); [lia | discriminate].
  - destruct (N.eqb_spec a b); [|discriminate].
    destruct (N.eqb_spec b a); [|discriminate].
    intros H1 H2. subst. f_equal. apply IH; assumption.
Qed.

Lemma str_leb_trans s t u :
  str_leb s t = true -> str_leb t u = true -> str_leb s u = true.
Proof.
  revert t u. induction s as [|a s IH]; intros [|b t] [|c u]; simpl;
    try discriminate; try reflexivity.
  destruct (N.ltb_spec a b), (N.ltb_spec b c), (N.ltb_spec a c);
    try reflexivity; try lia;
    destruct (N.eqb_spec a b), (N.eqb_spec b c), (N.eqb_spec a c);
    try discriminate; try lia; intros; try reflexivity.
  eapply IH; eassumption.
Qed.

Lemma insert_sorted_swap a b l :
  insert_sorted a (insert_sorted b l) = insert_sorted b (insert_sorted a l).
Proof.
  induction l as [|y l IH]; simpl.
  - destruct (str_leb a b) eqn:Hab, (str_leb b a) eqn:Hba; try reflexivity.
    + rewrite (str_leb_antisym _ _ Hab Hba). reflexivity.
    + destruct (str_leb_total a b); congruence.
  - destruct (str_leb b y) eqn:Hby, (str_leb a y) eqn:Hay; simpl.
    + destruct (str_leb a b) eqn:Hab, (str_leb b a) eqn:Hba;
        rewrite ?Hay, ?Hby; try reflexivity.
      * rewrite (str_leb_antisym _ _ Hab Hba). reflexivity.
      * destruct (str_leb_total a b); congruence.
    + rewrite Hby. destruct (str_leb a b) eqn:Hab.
      * rewrite (str_leb_trans _ _ _ Hab Hby) in Hay. discriminate.
      * rewrite Hay. reflexivity.
    + rewrite Hay. destruct (str_leb b a) eqn:Hba.
      * rewrite (str_leb_trans _ _ _ Hba Hay) in Hby. discriminate.
      * rewrite Hby. reflexivity.
    + rewrite Hay, Hby, IH. reflexivity.
Qed.

(** [sorted] gives the same list for every enumeration of the same names. *)
Lemma sorted_permutation l1 l2 :
  Permutation l1 l2 -> sorted l1 = sorted l2.
Proof.
  induction 1; simpl.
  - reflexivity.
  - rewrite IHPermutation. reflexivity.
  - apply insert_sorted_swap.
  - congruence.
Qed.

Lemma insert_sorted_in x a l : In x (insert_sorted a l) <-> x = a \/ In x l.
Proof.
  induction l as [|y l IH]; simpl.
  - intuition.
  - destruct (str_leb a y); simpl; rewrite ?IH; intuition.
Qed.

Lemma sorted_in x l : In x (sorted l) <-> In x l.
Proof.
  induction l as [|a l IH]; simpl; [tauto|].
  rewrite insert_sorted_in, IH. intuition.
Qed.

(* ================================================================= *)
(** * The tree builder, one iteration at a time *)

Lemma build_structure_xml_listed r path entries :
  build_structure_xml r path (Directory None entries)
  = for_items (sorted (map fst entries)) (loop_body r path entries).
Proof.
  simpl. apply for_items_ext. intros item _. unfold loop_body, hidden.
  destruct (startswith item [dot]); [reflexivity|].
  induction entries as [|[n child] rest IH]; simpl; [reflexivity|].
  destruct (str_eqb n item); [reflexivity | exact IH].
Qed.

Lemma build_structure_xml_unlistable r path err entries :
  build_structure_xml r path (Directory (Some err) entries)
  = if is_PermissionError err then Ok [] else Raise err.
Proof. reflexivity. Qed.

(** An iteration on an included entry appends one node, or raises. *)
Lemma process_item_included r path item child here :
  included r (path ++ [item]) item child = true ->
  process_item r path item child = Ok here ->
  exists n, here = [n] /\ node_name n = item
            /\ node_path n = relpath (path ++ [item]).
Proof.
  unfold included, process_item. intros Hinc.
  apply andb_true_iff in Hinc. destruct Hinc as [_ Hex].
  apply negb_true_iff in Hex. rewrite Hex.
  destruct (isdir child).
  - unfold bind.
    destruct (build_structure_xml r (path ++ [item]) child);
      [|discriminate].
    intros H. inversion H. eexists. split; [reflexivity|]. simpl. auto.
  - unfold file_element, bind.
    destruct (load_content (file_io_of child)); [|discriminate].
    intros H. inversion H. eexists. split; [reflexivity|]. simpl. auto.
Qed.

(** An iteration that appends something ran on an included entry. *)
Lemma loop_body_appends r path entries item here n :
  loop_body r path entries item = Ok here -> In n here ->
  exists child,
    lookup entries item = Some child /\
    included r (path ++ [item]) item child = true /\
    process_item r path item child = Ok here.
Proof.
  unfold loop_body, included. destruct (hidden item); simpl.
  - intros H. inversion H. subst. contradiction.
  - destruct (lookup entries item) as [child|].
    + intros H Hin. exists child. split; [reflexivity|]. split; [|exact H].
      unfold process_item in H.
      destruct (should_exclude_path _ _ _ _); [|reflexivity].
      inversion H. subst. contradiction.
    + intros H. inversion H. subst. contradiction.
Qed.

(* ================================================================= *)
(** * Every node comes from an included entry *)

Lemma visits_not_nil r path d segments :
  visits r path d segments = true -> segments <> [].
Proof. destruct segments; [discriminate | discriminate]. Qed.

Lemma last_cons (A : Type) (x : A) l d : l <> [] -> last (x :: l) d = last l d.
Proof. destruct l; [contradiction | reflexivity]. Qed.

Lemma build_sound d :
  forall r path tree n,
    build_structure_xml r path d = Ok tree ->
    In n (all_nodes tree) ->
    exists segments e,
      visits r path d segments = true /\
      resolve d segments = Some e /\
      included r (path ++ segments) (last segments []) e = true /\
      node_name n = last segments [] /\
      node_path n = relpath (path ++ segments) /\
      is_directory n = isdir e.
Proof.
  induction d as [f|f|err items IH] using entry_induction;
    intros r path tree n Hbuild Hn; try discriminate.
  destruct err as [err|].
  - rewrite build_structure_xml_unlistable in Hbuild.
    destruct (is_PermissionError err); [|discriminate].
    inversion Hbuild. subst. contradiction.
  - rewrite build_structure_xml_listed in Hbuild.
    unfold all_nodes in Hn. apply in_flat_map in Hn.
    destruct Hn as [top [Htop Hn]].
    destruct (for_items_origin _ _ _ _ Hbuild Htop)
      as [item [here [_ [Hbody Hin]]]].
    destruct (loop_body_appends _ _ _ _ _ _ Hbody Hin)
      as [child [Hlook [Hinc Hproc]]].
    destruct (process_item_included _ _ _ _ _ Hinc Hproc)
      as [m [-> [Hname Hpath]]].
    destruct Hin as [<-|[]].
    unfold process_item in Hproc.
    pose proof Hinc as Hinc'. unfold included in Hinc'.
    apply andb_true_iff in Hinc'. destruct Hinc' as [_ Hex].
    apply negb_true_iff in Hex. rewrite Hex in Hproc.
    destruct (isdir child) eqn:Hdir.
    + unfold bind in Hproc.
      destruct (build_structure_xml r (path ++ [item]) child)
        as [children|] eqn:Hchild; [|discriminate].
      inversion Hproc. subst m. clear Hproc.
      simpl in Hn. destruct Hn as [<-|Hn].
      * exists [item], child. simpl. rewrite Hlook, Hdir. auto 10.
      * rewrite Forall_forall in IH.
        specialize (IH (item, child) (lookup_in _ _ _ Hlook)
                       r (path ++ [item]) children n Hchild).
        simpl in IH. destruct IH as [segments [e H]].
        { unfold all_nodes. exact Hn. }
        destruct H as [Hv [Hr [Hi [Hnm [Hp Hk]]]]].
        pose proof (visits_not_nil _ _ _ _ Hv) as Hne.
        exists (item :: segments), e. simpl visits. simpl resolve.
        rewrite Hlook. rewrite last_cons by exact Hne.
        replace (path ++ item :: segments) with ((path ++ [item]) ++ segments)
          by (rewrite <- app_assoc; reflexivity).
        rewrite Hinc, Hdir, Hv.
        destruct segments; [contradiction|]. auto 10.
    + unfold file_element, bind in Hproc.
      destruct (load_content (file_io_of child)); [|discriminate].
      inversion Hproc. subst m. clear Hproc.
      simpl in Hn. destruct Hn as [<-|[]].
      exists [item], child. simpl. rewrite Hlook, Hdir. auto 10.
Qed.

(* ================================================================= *)
(** * Every included entry the traversal comes to has its node *)

Lemma build_complete segments :
  forall r path d tree e,
    build_structure_xml r path d = Ok tree ->
    visits r path d segments = true ->
    resolve d segments = Some e ->
    included r (path ++ segments) (last segments []) e = true ->
    exists n,
      process_item r (path ++ removelast segments) (last segments []) e
      = Ok [n]
      /\ In n (all_nodes tree).
Proof.
  induction segments as [|name rest IH];
    intros r path d tree e Hbuild Hv Hr Hinc; [discriminate|].
  destruct d as [f|f|[err|] items]; try discriminate.
  simpl in Hv, Hr.
  destruct (lookup items name) as [child|] eqn:Hlook; [|discriminate].
  rewrite build_structure_xml_listed in Hbuild.
  assert (In name (sorted (map fst items))) as Hin
    by (apply sorted_in; eapply lookup_some_listed; exact Hlook).
  destruct (for_items_keeps _ _ _ _ Hbuild Hin) as [here [Hbody Hincl]].
  assert (included r (path ++ [name]) name child = true) as Hchild.
  { destruct rest.
    - inversion Hr. subst. exact Hinc.
    - apply andb_true_iff in Hv. destruct Hv as [Hv _].
      apply andb_true_iff in Hv. tauto. }
  assert (process_item r path name child = Ok here) as Hproc.
  { unfold loop_body in Hbody. rewrite Hlook in Hbody.
    unfold included in Hchild. apply andb_true_iff in Hchild.
    destruct Hchild as [Hh _]. apply negb_true_iff in Hh.
    rewrite Hh in Hbody. exact Hbody. }
  destruct (process_item_included _ _ _ _ _ Hchild Hproc)
    as [m [-> _]].
  destruct rest as [|name' rest].
  - inversion Hr. subst e. exists m. simpl. rewrite app_nil_r.
    split; [exact Hproc|]. apply all_nodes_top, Hincl. left. reflexivity.
  - apply andb_true_iff in Hv. destruct Hv as [Hv Hv'].
    apply andb_true_iff in Hv. destruct Hv as [_ Hdir].
    unfold process_item in Hproc.
    unfold included in Hchild. apply andb_true_iff in Hchild.
    destruct Hchild as [_ Hex]. apply negb_true_iff in Hex.
    rewrite Hex, Hdir in Hproc. unfold bind in Hproc.
    destruct (build_structure_xml r (path ++ [name]) child)
      as [children|] eqn:Hkids; [|discriminate].
    inversion Hproc. subst m. clear Hproc.
    replace (path ++ name :: name' :: rest)
      with ((path ++ [name]) ++ name' :: rest) in Hinc
      by (rewrite <- app_assoc; reflexivity).
    rewrite last_cons in Hinc by discriminate.
    destruct (IH r (path ++ [name]) child children e Hkids Hv' Hr Hinc)
      as [n [Hn Hin']].
    exists n. rewrite last_cons by discriminate.
    replace (path ++ removelast (name :: name' :: rest))
      with ((path ++ [name]) ++ removelast (name' :: rest))
      by (rewrite <- app_assoc; reflexivity).
    split; [exact Hn|].
    apply (all_nodes_incl _ _ Hincl).
    apply all_nodes_directory. right. exact Hin'.
Qed.

(* ================================================================= *)
(** * The traversal ends normally when every error is recoverable *)





(* ================================================================= *)
(** * Exclusion in the resulting tree *)

Lemma included_inv r item_path item e :
  included r item_path item e = true ->
  hidden item = false /\
  should_exclude_path (exclude_folders r) (exclude_files r) (isfile e)
    (relpath item_path) = false.
Proof.
  unfold included. intros H. apply andb_true_iff in H.
  destruct H as [H1 H2]. apply negb_true_iff in H1, H2. auto.
Qed.

Lemma not_excluded_folder_rule folders files is_file rel_path :
  should_exclude_path folders files is_file rel_path = false ->
  folder_rule folders rel_path = false.
Proof.
  unfold should_exclude_path.
  destruct (is_file && file_rule files rel_path); [discriminate | auto].
Qed.

Lemma should_exclude_path_directory folders files rel_path :
  should_exclude_path folders files false rel_path
  = folder_rule folders rel_path.
Proof. reflexivity. Qed.

(** The paths in the tree contain no run of segments that is an
    excluded-folder pattern. *)
Lemma tree_paths_match_no_folder r root tree n :
  build_structure_xml r [] root = Ok tree ->
  In n (all_nodes tree) ->
  ~ folder_pattern_matches (exclude_folders r) (node_path n).
Proof.
  intros Hbuild Hn Hmatch.
  destruct (build_sound root r [] tree n Hbuild Hn)
    as [segments [e [_ [_ [Hinc [_ [Hpath _]]]]]]].
  apply included_inv in Hinc. destruct Hinc as [_ Hex].
  apply not_excluded_folder_rule in Hex. simpl in Hex, Hpath.
  rewrite <- Hpath in Hex. apply folder_rule_spec in Hmatch. congruence.
Qed.

(** C1.  When the segments of the relative path of an entry contain a
    contiguous run equal to the segments of an excluded-folder pattern (a
    window at any position, compared segment by segment), no node of the
    resulting tree has the path of that entry or of anything below it. *)
Theorem excluded_folder_subtree_absent :
  forall r root tree segments below pattern n,
    build_structure_xml r [] root = Ok tree ->
    segments <> [] ->
    In pattern (exclude_folders r) ->
    contains_run (split os_sep (relpath segments)) (split slash pattern) ->
    In n (all_nodes tree) ->
    node_path n <> relpath (segments ++ below).
Proof.
  intros r root tree segments below pattern n Hbuild Hne Hpat Hrun Hn Hpath.
  apply (tree_paths_match_no_folder r root tree n Hbuild Hn).
  exists pattern. split; [exact Hpat|]. rewrite Hpath.
  destruct below as [|b below].
  - rewrite app_nil_r. exact Hrun.
  - rewrite split_relpath_app by (assumption || discriminate).
    apply contains_run_app_r. exact Hrun.
Qed.

Lemma excluded_folder_subtree_absent_witness :
  node_path (XFile (py "a.py") (py "a.py") (py "python") (py "x=1"))
  <> relpath ([py "sub"] ++ [py "b.txt"]).
Proof.
  apply (excluded_folder_subtree_absent
           (mkRules [py "sub"] [])
           (Directory None
              [ (py "sub", Directory None [(py "b.txt", text_file (py "hi"))]);
                (py "a.py", text_file (py "x=1")) ])
           [XFile (py "a.py") (py "a.py") (py "python") (py "x=1")]
           [py "sub"] [py "b.txt"] (py "sub")
           (XFile (py "a.py") (py "a.py") (py "python") (py "x=1"))).
  - reflexivity.
  - discriminate.
  - left. reflexivity.
  - exists [], []. reflexivity.
  - left. reflexivity.
Defined.

(** C6.  Every node of the document stands for an entry of the tree under
    [repo_folder] on which [should_exclude_path] is false under the rules of
    the run, and no node has a name that begins with a dot, whatever the
    exclusion lists are. *)
Theorem document_nodes_not_excluded :
  forall r root repo_folder doc n,
    document_of root repo_folder r = Ok doc ->
    In n (all_nodes (doc_structure doc)) ->
    hidden (node_name n) = false /\
    exists segments e,
      resolve root segments = Some e /\
      node_path n = relpath segments /\
      is_directory n = isdir e /\
      should_exclude_path (exclude_folders r) (exclude_files r) (isfile e)
        (node_path n) = false.
Proof.
  intros r root repo_folder doc n Hdoc Hn. unfold document_of, bind in Hdoc.
  destruct (build_structure_xml r [] root) as [tree|] eqn:Hbuild;
    [|discriminate].
  inversion Hdoc. subst doc. simpl in Hn.
  destruct (build_sound root r [] tree n Hbuild Hn)
    as [segments [e [_ [Hres [Hinc [Hname [Hpath Hkind]]]]]]].
  apply included_inv in Hinc. destruct Hinc as [Hhid Hex].
  simpl in Hex, Hpath. split.
  - rewrite Hname. exact Hhid.
  - exists segments, e. rewrite Hpath. auto.
Qed.

Lemma document_nodes_not_excluded_witness :
  hidden (py "b.txt") = false /\
  exists segments e,
    resolve sample_root segments = Some e /\
    py "sub/b.txt" = relpath segments /\
    false = isdir e /\
    should_exclude_path [py "docs"] [py "secret.env"] (isfile e)
      (py "sub/b.txt") = false.
Proof.
  apply (document_nodes_not_excluded
           (mkRules [py "docs"] [py "secret.env"]) sample_root
           (py "/home/u/repo")
           (mkDocument (py "/home/u/repo") (py "repo") (Some (py "docs"))
              (Some (py "secret.env"))
              [ XFile (py "a.py") (py "a.py") (py "python") (py "x=1");
                XFile (py "broken") (py "broken") (py "text")
                  (unreadable_text io_error);
                XDirectory (py "locked") (py "locked") [];
                XDirectory (py "sub") (py "sub")
                  [XFile (py "b.txt") (py "sub/b.txt") (py "text") (py "hi")] ])
           (XFile (py "b.txt") (py "sub/b.txt") (py "text") (py "hi"))).
  - reflexivity.
  - simpl. auto 10.
Defined.

(* ================================================================= *)
(** * Paths name entries *)

Lemma valid_names_items err items name child :
  valid_names (Directory err items) -> In (name, child) items ->
  ~ In os_sep name /\ valid_names child.
Proof.
  induction items as [|[n c] rest IH]; intros H Hin; [contradiction|].
  simpl in H. destruct H as [Hn [Hc Hrest]]. destruct Hin as [Heq|Hin].
  - inversion Heq. subst. auto.
  - apply IH; assumption.
Qed.

Lemma visits_valid_segments segments :
  forall r path d,
    valid_names d -> visits r path d segments = true ->
    Forall (fun name => ~ In os_sep name) segments.
Proof.
  induction segments as [|name rest IH]; intros r path d Hvalid Hv;
    [constructor|].
  destruct d as [f|f|[err|] items]; try discriminate. simpl in Hv.
  destruct (lookup items name) as [child|] eqn:Hlook; [|discriminate].
  apply lookup_in in Hlook.
  destruct (valid_names_items _ _ _ _ Hvalid Hlook) as [Hname Hchild].
  constructor; [exact Hname|].
  destruct rest as [|name' rest]; [constructor|].
  apply andb_true_iff in Hv. destruct Hv as [_ Hv].
  apply (IH r (path ++ [name]) child Hchild Hv).
Qed.

Lemma relpath_injective segments segments' :
  segments <> [] -> segments' <> [] ->
  Forall (fun name => ~ In os_sep name) segments ->
  Forall (fun name => ~ In os_sep name) segments' ->
  relpath segments = relpath segments' -> segments = segments'.
Proof.
  intros Hne Hne' Hv Hv' Heq.
  rewrite <- (split_join os_sep segments Hne Hv).
  rewrite <- (split_join os_sep segments' Hne' Hv').
  unfold relpath in Heq. rewrite Heq. reflexivity.
Qed.


(** A node whose path is that of an entry the traversal comes to stands for
    that entry. *)
Lemma node_of_path r root tree n segments e :
  valid_names root ->
  build_structure_xml r [] root = Ok tree ->
  In n (all_nodes tree) ->
  visits r [] root segments = true ->
  resolve root segments = Some e ->
  node_path n = relpath segments ->
  included r segments (last segments []) e = true /\
  is_directory n = isdir e.
Proof.
  intros Hvalid Hbuild Hn Hv Hres Hpath.
  destruct (build_sound root r [] tree n Hbuild Hn)
    as [segments' [e' [Hv' [Hres' [Hinc [_ [Hpath' Hkind]]]]]]].
  simpl in Hinc, Hpath'.
  assert (segments' = segments) as ->.
  { apply relpath_injective.
    - eapply visits_not_nil; exact Hv'.
    - eapply visits_not_nil; exact Hv.
    - eapply visits_valid_segments; eassumption.
    - eapply visits_valid_segments; eassumption.
    - congruence. }
  assert (e' = e) as -> by congruence. auto.
Qed.

(* ================================================================= *)
(** * Included entries have their nodes *)

Lemma folder_rule_false folders rel_path :
  ~ folder_pattern_matches folders rel_path ->
  folder_rule folders rel_path = false.
Proof.
  intros H. destruct (folder_rule folders rel_path) eqn:Hr; [|reflexivity].
  apply folder_rule_spec in Hr. contradiction.
Qed.

Lemma removelast_last (segments : list pystr) :
  segments <> [] -> removelast segments ++ [last segments []] = segments.
Proof. intros H. symmetry. apply app_removelast_last. exact H. Qed.

(** The node of an included directory the traversal comes to. *)
Lemma included_directory_node r root tree segments err items :
  build_structure_xml r [] root = Ok tree ->
  visits r [] root segments = true ->
  resolve root segments = Some (Directory err items) ->
  included r segments (last segments []) (Directory err items) = true ->
  exists children,
    build_structure_xml r segments (Directory err items) = Ok children /\
    In (XDirectory (last segments []) (relpath segments) children)
       (all_nodes tree).
Proof.
  intros Hbuild Hv Hres Hinc.
  pose proof (visits_not_nil _ _ _ _ Hv) as Hne.
  destruct (build_complete segments r [] root tree _ Hbuild Hv Hres Hinc)
    as [n [Hproc Hn]].
  cbn [app] in Hproc. unfold process_item in Hproc.
  rewrite (removelast_last _ Hne) in Hproc.
  apply included_inv in Hinc. destruct Hinc as [_ Hex].
  rewrite Hex in Hproc. cbn [isdir] in Hproc. unfold bind in Hproc.
  destruct (build_structure_xml r segments (Directory err items))
    as [children|]; [|discriminate].
  inversion Hproc. subst n. exists children. auto.
Qed.

(** The node of an included non-directory entry the traversal comes to. *)
Lemma included_file_node r root tree segments e :
  build_structure_xml r [] root = Ok tree ->
  visits r [] root segments = true ->
  resolve root segments = Some e ->
  isdir e = false ->
  included r segments (last segments []) e = true ->
  exists content,
    load_content (file_io_of e) = Ok content /\
    In (XFile (last segments []) (relpath segments)
          (language_of (last segments [])) content)
       (all_nodes tree).
Proof.
  intros Hbuild Hv Hres Hdir Hinc.
  pose proof (visits_not_nil _ _ _ _ Hv) as Hne.
  destruct (build_complete segments r [] root tree _ Hbuild Hv Hres Hinc)
    as [n [Hproc Hn]].
  cbn [app] in Hproc. unfold process_item in Hproc.
  rewrite (removelast_last _ Hne) in Hproc.
  apply included_inv in Hinc. destruct Hinc as [_ Hex].
  rewrite Hex, Hdir in Hproc. unfold file_element, bind in Hproc.
  destruct (load_content (file_io_of e)) as [content|]; [|discriminate].
  inversion Hproc. subst n. exists content. auto.
Qed.

(** C10.  The file patterns are not consulted for an entry that is not a
    file; so a directory the traversal comes to, that is not hidden and that
    no excluded-folder pattern matches, has its node in the tree and is
    traversed, whatever the excluded files are (also when its relative path
    is one of them). *)
Theorem excluded_files_keep_directories :
  (forall folders files rel_path,
      should_exclude_path folders files false rel_path
      = should_exclude_path folders [] false rel_path)
  /\
  (forall r root tree segments err items,
      build_structure_xml r [] root = Ok tree ->
      visits r [] root segments = true ->
      resolve root segments = Some (Directory err items) ->
      hidden (last segments []) = false ->
      ~ folder_pattern_matches (exclude_folders r) (relpath segments) ->
      exists children,
        build_structure_xml r segments (Directory err items) = Ok children /\
        In (XDirectory (last segments []) (relpath segments) children)
           (all_nodes tree)).
Proof.
  split; [reflexivity|].
  intros r root tree segments err items Hbuild Hv Hres Hhid Hno.
  apply (included_directory_node r root tree segments err items);
    try assumption.
  unfold included. rewrite Hhid. cbn [isfile negb andb].
  rewrite should_exclude_path_directory, (folder_rule_false _ _ Hno).
  reflexivity.
Qed.

Lemma excluded_files_keep_directories_witness :
  exists children,
    build_structure_xml (mkRules [] [py "docs"; py "x.md"]) [py "docs"]
      (Directory None [(py "x.md", text_file (py "# x"))]) = Ok children /\
    In (XDirectory (py "docs") (py "docs") children)
       (all_nodes [XDirectory (py "docs") (py "docs") []]).
Proof.
  apply (proj2 excluded_files_keep_directories
           (mkRules [] [py "docs"; py "x.md"])
           (Directory None
              [(py "docs", Directory None [(py "x.md", text_file (py "# x"))])])
           [XDirectory (py "docs") (py "docs") []]
           [py "docs"] None [(py "x.md", text_file (py "# x"))]).
  - reflexivity.
  - reflexivity.
  - reflexivity.
  - reflexivity.
  - intros [pattern [[] _]].
Defined.

(** C5, as the code has it.  A regular file the traversal comes to, whose
    name is not hidden, is absent from the tree if and only if its relative
    path is an excluded file or ends with the separator followed by one, or
    the segments of its relative path contain a contiguous run equal to the
    segments of an excluded-folder pattern.  A root that holds only the file
    secret.env, with secret.env as the excluded file, gives a tree without
    any node. *)
Theorem file_absent_iff_excluded :
  (forall r root tree segments f,
      valid_names root ->
      build_structure_xml r [] root = Ok tree ->
      visits r [] root segments = true ->
      resolve root segments = Some (RegularFile f) ->
      hidden (last segments []) = false ->
      ((forall n, In n (all_nodes tree) -> node_path n <> relpath segments)
       <->
       file_pattern_matches (exclude_files r) (relpath segments) \/
       folder_pattern_matches (exclude_folders r) (relpath segments)))
  /\
  (forall f,
      build_structure_xml (mkRules [] [py "secret.env"]) []
        (Directory None [(py "secret.env", RegularFile f)]) = Ok []).
Proof.
  split; [|reflexivity].
  intros r root tree segments f Hvalid Hbuild Hv Hres Hhid.
  destruct (should_exclude_path (exclude_folders r) (exclude_files r) true
              (relpath segments)) eqn:Hex.
  - split.
    + intros _. apply should_exclude_path_spec in Hex. tauto.
    + intros _ n Hn Hpath.
      destruct (node_of_path r root tree n segments (RegularFile f)
                  Hvalid Hbuild Hn Hv Hres Hpath) as [Hinc _].
      apply included_inv in Hinc. destruct Hinc as [_ Hno].
      simpl in Hno. congruence.
  - split.
    + intros Habsent. exfalso.
      destruct (included_file_node r root tree segments (RegularFile f)
                  Hbuild Hv Hres eq_refl) as [content [_ Hn]].
      * unfold included. rewrite Hhid. simpl. rewrite Hex. reflexivity.
      * apply (Habsent _ Hn). reflexivity.
    + intros H. exfalso.
      assert (should_exclude_path (exclude_folders r) (exclude_files r) true
                (relpath segments) = true) as Hyes
        by (apply should_exclude_path_spec; tauto).
      congruence.
Qed.

Lemma file_absent_iff_excluded_witness :
  (forall n, In n (all_nodes [XDirectory (py "docs") (py "docs") []]) ->
             node_path n <> relpath [py "docs"; py "x.md"])
  <->
  file_pattern_matches [py "x.md"] (relpath [py "docs"; py "x.md"]) \/
  folder_pattern_matches [] (relpath [py "docs"; py "x.md"]).
Proof.
  apply (proj1 file_absent_iff_excluded
           (mkRules [] [py "x.md"])
           (Directory None
              [(py "docs", Directory None [(py "x.md", text_file (py "# x"))])])
           [XDirectory (py "docs") (py "docs") []]
           [py "docs"; py "x.md"]
           (mkFile (Ok 3%N) (Ok (py "# x")))).
  - simpl. repeat split; intros H; simpl in H;
      repeat (destruct H as [H|H]; [discriminate|]); exact H.
  - reflexivity.
  - reflexivity.
  - reflexivity.
  - reflexivity.
Defined.

(** C5, as the claim has it, fails: with "build" as an excluded folder and
    no excluded file, the regular file build is absent from the tree, though
    its relative path matches no excluded file. *)
Lemma file_excluded_without_file_pattern :
  build_structure_xml (mkRules [py "build"] []) []
    (Directory None [(py "build", text_file (py "hi"))]) = Ok []
  /\ ~ file_pattern_matches (exclude_files (mkRules [py "build"] []))
         (relpath [py "build"]).
Proof.
  split; [reflexivity|]. intros [pattern [[] _]].
Qed.


Lemma process_item_kind r path item child n :
  process_item r path item child = Ok [n] -> is_directory n = isdir child.
Proof.
  unfold process_item.
  destruct (should_exclude_path _ _ _ _); [discriminate|].
  destruct (isdir child).
  - unfold bind. destruct (build_structure_xml _ _ _); [|discriminate].
    intros H. inversion H. reflexivity.
  - unfold file_element, bind. destruct (load_content _); [|discriminate].
    intros H. inversion H. reflexivity.
Qed.

(** The node of an included entry the traversal comes to. *)
Lemma included_entry_node r root tree segments e :
  build_structure_xml r [] root = Ok tree ->
  visits r [] root segments = true ->
  resolve root segments = Some e ->
  included r segments (last segments []) e = true ->
  exists n,
    In n (all_nodes tree) /\ node_path n = relpath segments /\
    node_name n = last segments [] /\ is_directory n = isdir e.
Proof.
  intros Hbuild Hv Hres Hinc.
  pose proof (visits_not_nil _ _ _ _ Hv) as Hne.
  destruct (build_complete segments r [] root tree _ Hbuild Hv Hres Hinc)
    as [n [Hproc Hn]].
  cbn [app] in Hproc. exists n. split; [exact Hn|].
  pose proof (process_item_kind _ _ _ _ _ Hproc) as Hkind.
  assert (included r (removelast segments ++ [last segments []])
            (last segments []) e = true) as Hinc'
    by (rewrite (removelast_last _ Hne); exact Hinc).
  destruct (process_item_included _ _ _ _ _ Hinc' Hproc)
    as [m [Hm [Hname Hpath]]].
  inversion Hm. subst m. rewrite (removelast_last _ Hne) in Hpath. auto.
Qed.

(* ================================================================= *)
(** * The pipeline *)







Lemma sample_root_valid : valid_names sample_root.
Proof.
  simpl. repeat split; intros H; simpl in H;
    repeat (destruct H as [H|H]; [discriminate|]); exact H.
Qed.






(* ================================================================= *)
(** * The order of enumeration does not reach the output *)

Lemma lookup_permutation l1 l2 name :
  Permutation l1 l2 -> NoDup (map fst l1) -> lookup l1 name = lookup l2 name.
Proof.
  induction 1 as [|[n c] l1 l2 Hperm IH|[n c] [n' c'] l|l1 l2 l3 H12 IH12 H23 IH23];
    intros Hnodup.
  - reflexivity.
  - simpl. inversion Hnodup; subst. rewrite IH by assumption. reflexivity.
  - simpl. destruct (str_eqb n' name) eqn:H1, (str_eqb n name) eqn:H2;
      try reflexivity.
    apply str_eqb_eq in H1, H2. subst. simpl in Hnodup.
    inversion Hnodup as [|? ? Hnot _]. subst. exfalso. apply Hnot.
    left. reflexivity.
  - rewrite IH12 by assumption. apply IH23.
    apply (Permutation_NoDup (Permutation_map fst H12) Hnodup).
Qed.

Lemma reorder_names order path items :
  map fst (map (fun p : pystr * entry =>
                  match p with
                  | (name, child) =>
                      (name, reorder order (path ++ [name]) child)
                  end) items)
  = map fst items.
Proof.
  induction items as [|[n c] rest IH]; simpl; [reflexivity|].
  rewrite IH. reflexivity.
Qed.

Lemma lookup_reordered order path items name :
  lookup (map (fun p : pystr * entry =>
                 match p with
                 | (name, child) =>
                     (name, reorder order (path ++ [name]) child)
                 end) items) name
  = option_map (reorder order (path ++ [name])) (lookup items name).
Proof.
  induction items as [|[n c] rest IH]; simpl; [reflexivity|].
  destruct (str_eqb n name) eqn:Hn; [|exact IH].
  apply str_eqb_eq in Hn. subst. reflexivity.
Qed.

Lemma distinct_names_items err items name child :
  distinct_names (Directory err items) -> In (name, child) items ->
  distinct_names child.
Proof.
  intros [_ H]. induction items as [|[n c] rest IH]; intros Hin;
    [contradiction|].
  destruct H as [Hc Hrest]. destruct Hin as [Heq|Hin].
  - inversion Heq. subst. exact Hc.
  - apply IH; assumption.
Qed.

Lemma reorder_isfile order path e : isfile (reorder order path e) = isfile e.
Proof. destruct e; reflexivity. Qed.

Lemma reorder_isdir order path e : isdir (reorder order path e) = isdir e.
Proof. destruct e; reflexivity. Qed.

Lemma reorder_file order path e :
  isdir e = false -> reorder order path e = e.
Proof. destruct e; [reflexivity | reflexivity | discriminate]. Qed.

(** The tree built is the same for every order in which the directories
    enumerate their entries. *)
Lemma build_reorder d :
  forall order r path,
    (forall p items, Permutation (order p items) items) ->
    distinct_names d ->
    build_structure_xml r path (reorder order path d)
    = build_structure_xml r path d.
Proof.
  induction d as [f|f|err items IH] using entry_induction;
    intros order r path Horder Hdistinct; try reflexivity.
  destruct err as [err|]; [reflexivity|].
  cbn [reorder].
  set (moved := map (fun p : pystr * entry =>
                       match p with
                       | (name, child) =>
                           (name, reorder order (path ++ [name]) child)
                       end) items).
  rewrite !build_structure_xml_listed.
  assert (Permutation (order path moved) moved) as Hperm by apply Horder.
  assert (map fst moved = map fst items) as Hnames
    by apply reorder_names.
  rewrite (sorted_permutation _ _ (Permutation_map fst Hperm)), Hnames.
  apply for_items_ext. intros item _. unfold loop_body.
  destruct (hidden item); [reflexivity|].
  rewrite (lookup_permutation _ _ item Hperm).
  2:{ apply (Permutation_NoDup (Permutation_map fst (Permutation_sym Hperm))).
      rewrite Hnames. apply Hdistinct. }
  unfold moved. rewrite lookup_reordered.
  destruct (lookup items item) as [child|] eqn:Hlook; [|reflexivity].
  cbn [option_map]. apply lookup_in in Hlook.
  unfold process_item. rewrite reorder_isfile, reorder_isdir.
  destruct (should_exclude_path _ _ _ _); [reflexivity|].
  destruct (isdir child) eqn:Hdir.
  - rewrite Forall_forall in IH.
    pose proof (IH _ Hlook order r (path ++ [item]) Horder
                  (distinct_names_items _ _ _ _ Hdistinct Hlook)) as Hchild.
    cbn [snd] in Hchild. rewrite Hchild. reflexivity.
  - rewrite (reorder_file _ _ _ Hdir). reflexivity.
Qed.

(** C9.  The outcome of a run (the value returned and the text written) is
    a function of the directory tree, of the exclusion rules and of the
    output path alone: since the names of each directory are sorted before
    they are processed, the order in which the directories enumerate their
    entries does not reach it. *)
Theorem output_independent_of_enumeration_order :
  forall toprettyxml order w repo_folder output_path,
    (forall path items, Permutation (order path items) items) ->
    (forall root, repo_entry w = Some root -> distinct_names root) ->
    (forall exclude_folders exclude_files,
        describe_repo_contents_xml toprettyxml (reorder_world order w)
          repo_folder output_path exclude_folders exclude_files
        = describe_repo_contents_xml toprettyxml w
            repo_folder output_path exclude_folders exclude_files)
    /\
    (forall exclude exclude_files,
        main toprettyxml (reorder_world order w) repo_folder output_path
          exclude exclude_files
        = main toprettyxml w repo_folder output_path exclude exclude_files).
Proof.
  intros toprettyxml order w repo_folder output_path Horder Hdistinct.
  assert (forall fo fi,
             describe_repo_contents_xml toprettyxml (reorder_world order w)
               repo_folder output_path fo fi
             = describe_repo_contents_xml toprettyxml w
                 repo_folder output_path fo fi) as Hdescribe.
  { intros fo fi. unfold describe_repo_contents_xml, final_xml_of.
    destruct w as [[root|] mk op]; [|reflexivity].
    cbn [reorder_world repo_entry option_map makedirs_raises
         open_output_raises].
    rewrite reorder_isdir. unfold document_of.
    rewrite (build_reorder root order _ [] Horder
               (Hdistinct root eq_refl)).
    reflexivity. }
  split; [exact Hdescribe|].
  intros exclude exclude_files. unfold main. rewrite Hdescribe.
  destruct w as [[root|] mk op]; [|reflexivity].
  cbn [reorder_world repo_entry option_map]. rewrite reorder_isdir.
  reflexivity.
Qed.

Lemma output_independent_of_enumeration_order_witness :
  (forall exclude_folders exclude_files,
      describe_repo_contents_xml paths_renderer
        (reorder_world (fun _ items => rev items) sample_world)
        (py "/home/u/repo") (py "/tmp/out.xml") exclude_folders exclude_files
      = describe_repo_contents_xml paths_renderer sample_world
          (py "/home/u/repo") (py "/tmp/out.xml")
          exclude_folders exclude_files)
  /\
  (forall exclude exclude_files,
      main paths_renderer
        (reorder_world (fun _ items => rev items) sample_world)
        (py "/home/u/repo") (py "/tmp/out.xml") exclude exclude_files
      = main paths_renderer sample_world
          (py "/home/u/repo") (py "/tmp/out.xml") exclude exclude_files).
Proof.
  apply (output_independent_of_enumeration_order paths_renderer
           (fun _ items => rev items) sample_world
           (py "/home/u/repo") (py "/tmp/out.xml")).
  - intros path items. apply Permutation_sym, Permutation_rev.
  - intros root H. inversion H. subst root. simpl.
    repeat split; try (repeat constructor; simpl; intuition discriminate).
Defined.

(* ================================================================= *)
(** * More on the exclusion predicate *)

Lemma join_split sep s : join [sep] (split sep s) = s.
Proof.
  induction s as [|c s IH]; [reflexivity|]. cbn [split].
  pose proof (split_not_nil sep s) as Hne.
  destruct (N.eqb_spec c sep) as [->|Hc].
  - rewrite join_cons by exact Hne. rewrite IH. reflexivity.
  - destruct (split sep s) as [|part parts]; [contradiction|].
    destruct parts as [|part' parts].
    + simpl in IH |- *. rewrite IH. reflexivity.
    + rewrite join_cons by discriminate.
      rewrite join_cons in IH by discriminate.
      rewrite <- IH. reflexivity.
Qed.

Lemma split_parts_no_sep sep s :
  Forall (fun part => ~ In sep part) (split sep s).
Proof.
  induction s as [|c s IH]; cbn [split].
  - constructor; [intros [] | constructor].
  - destruct (N.eqb_spec c sep) as [->|Hc].
    + constructor; [intros [] | exact IH].
    + destruct (split sep s) as [|part parts].
      * constructor; [|constructor]. intros [H|[]]. congruence.
      * inversion IH as [|? ? Hpart Hparts]; subst.
        constructor; [|exact Hparts]. intros [H|H]; [congruence | tauto].
Qed.

(** X1.  The file rule is a test on segments: a relative path matches an
    excluded file exactly when the segments of the pattern are the last
    segments of the path. *)
Theorem file_rule_is_segment_suffix :
  forall exclude_files rel_path,
    file_rule exclude_files rel_path = true <->
    exists pattern before,
      In pattern exclude_files /\
      split os_sep rel_path = before ++ split slash pattern.
Proof.
  intros exclude_files rel_path. rewrite file_rule_spec.
  unfold file_pattern_matches. split.
  - intros [pattern [Hin [-> | [front ->]]]].
    + exists pattern, []. auto.
    + exists pattern, (split os_sep front). split; [exact Hin|].
      apply split_app_sep.
  - intros [pattern [before [Hin Hsplit]]]. exists pattern.
    split; [exact Hin|].
    pose proof (join_split os_sep rel_path) as Hrel.
    rewrite Hsplit in Hrel. destruct before as [|b before].
    + left. rewrite <- Hrel. apply (join_split slash pattern).
    + right. exists (join [os_sep] (b :: before)).
      rewrite <- Hrel. change os_sep with slash.
      rewrite join_app by (discriminate || apply split_not_nil).
      rewrite (join_split slash pattern). reflexivity.
Qed.

(** X2.  What the file rule excludes, the folder rule excludes with the same
    patterns: a path that matches an excluded file also matches that pattern
    taken as an excluded folder. *)
Theorem file_rule_within_folder_rule :
  forall patterns rel_path,
    file_rule patterns rel_path = true ->
    folder_rule patterns rel_path = true.
Proof.
  intros patterns rel_path H. apply file_rule_spec in H.
  destruct H as [pattern [Hin H]].
  apply folder_rule_spec. exists pattern. split; [exact Hin|].
  destruct H as [-> | [front ->]].
  - exists [], []. rewrite app_nil_r. reflexivity.
  - exists (split os_sep front), []. rewrite app_nil_r.
    apply split_app_sep.
Qed.

Lemma file_rule_within_folder_rule_witness :
  folder_rule [py "x.md"] (py "docs/x.md") = true.
Proof.
  apply (file_rule_within_folder_rule [py "x.md"] (py "docs/x.md")).
  reflexivity.
Defined.

Lemma contains_run_in (parts run : list pystr) part :
  contains_run parts run -> In part run -> In part parts.
Proof.
  intros [before [after ->]] H. apply in_or_app. right.
  apply in_or_app. left. exact H.
Qed.

(** X3.  An excluded-folder pattern with an empty segment (a pattern that
    ends or begins with '/', holds "//" or is empty) excludes no path whose
    segments are all non-empty. *)
Theorem folder_pattern_with_empty_segment_never_matches :
  forall exclude_folders rel_path,
    (forall pattern, In pattern exclude_folders ->
                     In [] (split slash pattern)) ->
    Forall (fun segment => segment <> []) (split os_sep rel_path) ->
    folder_rule exclude_folders rel_path = false.
Proof.
  intros exclude_folders rel_path Hpatterns Hsegments.
  apply folder_rule_false. intros [pattern [Hin Hrun]].
  pose proof (contains_run_in _ _ _ Hrun (Hpatterns pattern Hin)) as Hempty.
  rewrite Forall_forall in Hsegments.
  apply (Hsegments [] Hempty). reflexivity.
Qed.

Lemma folder_pattern_with_empty_segment_never_matches_witness :
  folder_rule [py "utils/"; py ""; py "/hooks"] (py "utils/hooks/a.py")
  = false.
Proof.
  apply (folder_pattern_with_empty_segment_never_matches
           [py "utils/"; py ""; py "/hooks"] (py "utils/hooks/a.py")).
  - intros pattern [<-|[<-|[<-|[]]]]; simpl; auto.
  - repeat constructor; discriminate.
Defined.

(** X4.  Exclusion under two sets of rules put together is exclusion under
    one of them: the order of the patterns and their repetition do not
    matter. *)
Theorem should_exclude_path_app :
  forall folders folders' files files' is_file rel_path,
    should_exclude_path (folders ++ folders') (files ++ files') is_file
      rel_path
    = should_exclude_path folders files is_file rel_path
      || should_exclude_path folders' files' is_file rel_path.
Proof.
  intros folders folders' files files' is_file rel_path.
  unfold should_exclude_path, file_rule, folder_rule.
  rewrite !existsb_app.
  destruct is_file;
    repeat match goal with
           | |- context [existsb ?f ?l] => destruct (existsb f l)
           end;
    reflexivity.
Qed.

(* ================================================================= *)
(** * The shape of the tree *)

Lemma insert_sorted_strongly x l :
  StronglySorted (fun a b => str_leb a b = true) l ->
  StronglySorted (fun a b => str_leb a b = true) (insert_sorted x l).
Proof.
  induction 1 as [|y l Hl IH Hy]; simpl.
  - constructor; constructor.
  - destruct (str_leb x y) eqn:Hxy.
    + constructor; [constructor; assumption|].
      constructor; [exact Hxy|].
      rewrite Forall_forall in Hy |- *. intros z Hz.
      apply (str_leb_trans _ _ _ Hxy (Hy z Hz)).
    + constructor; [exact IH|].
      rewrite Forall_forall in Hy |- *. intros z Hz.
      apply insert_sorted_in in Hz. destruct Hz as [->|Hz]; [|auto].
      destruct (str_leb_total x y); congruence.
Qed.

Lemma sorted_strongly l :
  StronglySorted (fun a b => str_leb a b = true) (sorted l).
Proof.
  induction l as [|x l IH]; simpl; [constructor|].
  apply insert_sorted_strongly, IH.
Qed.

Lemma loop_body_shape r path entries item here :
  loop_body r path entries item = Ok here ->
  here = [] \/
  exists n child,
    here = [n] /\ node_name n = item /\
    lookup entries item = Some child /\
    process_item r path item child = Ok [n].
Proof.
  intros H. destruct here as [|n rest]; [left; reflexivity|]. right.
  destruct (loop_body_appends _ _ _ _ _ n H (or_introl eq_refl))
    as [child [Hlook [Hinc Hproc]]].
  destruct (process_item_included _ _ _ _ _ Hinc Hproc)
    as [m [Hm [Hname _]]].
  inversion Hm. subst. exists m, child. auto.
Qed.

Lemma for_items_names_sorted items body tree :
  (forall item here, body item = Ok here ->
     here = [] \/ exists n, here = [n] /\ node_name n = item) ->
  StronglySorted (fun a b => str_leb a b = true) items ->
  for_items items body = Ok tree ->
  names_sorted tree /\ incl (map node_name tree) items.
Proof.
  intros Hbody. unfold names_sorted. revert tree.
  induction items as [|item rest IH]; intros tree Hsorted H.
  - inversion H. subst. split; [constructor | intros x []].
  - apply for_items_ok_inv in H.
    destruct H as [here [more [Hhere [Hmore ->]]]].
    inversion Hsorted as [|? ? Hrest Hhead]; subst.
    destruct (IH more Hrest Hmore) as [IHs IHi].
    destruct (Hbody item here Hhere) as [->|[n [-> Hname]]].
    + split; [exact IHs|]. intros x Hx. right. apply IHi, Hx.
    + simpl. rewrite Hname. split.
      * constructor; [exact IHs|].
        rewrite Forall_forall in Hhead |- *. intros x Hx.
        apply Hhead, IHi, Hx.
      * intros x [<-|Hx]; [left; reflexivity | right; apply IHi, Hx].
Qed.

Lemma shaped_directory path name p children :
  shaped path (XDirectory name p children) <->
  p = relpath (path ++ [name]) /\ names_sorted children /\
  Forall (shaped (path ++ [name])) children.
Proof.
  cbn [shaped].
  assert ((fix each (l : list xnode) : Prop :=
             match l with
             | [] => True
             | child :: rest => shaped (path ++ [name]) child /\ each rest
             end) children
          <-> Forall (shaped (path ++ [name])) children) as Heach.
  { induction children as [|c rest IH]; split; intros H.
    - constructor.
    - exact I.
    - destruct H as [Hc Hrest]. constructor; [exact Hc | apply IH, Hrest].
    - inversion H; subst. split; [assumption | apply IH; assumption]. }
  rewrite Heach. reflexivity.
Qed.

(** The builder makes nodes of the shape [shaped]. *)
Lemma build_shaped d :
  forall r path tree,
    build_structure_xml r path d = Ok tree ->
    names_sorted tree /\ Forall (shaped path) tree.
Proof.
  induction d as [f|f|err items IH] using entry_induction;
    intros r path tree Hbuild; try discriminate.
  destruct err as [err|].
  - rewrite build_structure_xml_unlistable in Hbuild.
    destruct (is_PermissionError err); [|discriminate].
    inversion Hbuild. split; constructor.
  - rewrite build_structure_xml_listed in Hbuild. split.
    + apply (for_items_names_sorted (sorted (map fst items))
               (loop_body r path items)); [| apply sorted_strongly | exact Hbuild].
      intros item here Hhere.
      destruct (loop_body_shape _ _ _ _ _ Hhere)
        as [->|[n [child [-> [Hname _]]]]]; [left; reflexivity|].
      right. exists n. auto.
    + apply Forall_forall. intros n Hn.
      destruct (for_items_origin _ _ _ _ Hbuild Hn)
        as [item [here [_ [Hhere Hin]]]].
      destruct (loop_body_shape _ _ _ _ _ Hhere)
        as [->|[m [child [-> [_ [Hlook Hproc]]]]]]; [contradiction|].
      destruct Hin as [<-|[]].
      unfold process_item in Hproc.
      destruct (should_exclude_path _ _ _ _); [discriminate|].
      destruct (isdir child) eqn:Hdir.
      * unfold bind in Hproc.
        destruct (build_structure_xml r (path ++ [item]) child)
          as [children|] eqn:Hchildren; [|discriminate].
        inversion Hproc. subst m. apply shaped_directory.
        rewrite Forall_forall in IH.
        destruct (IH _ (lookup_in _ _ _ Hlook) r (path ++ [item]) children
                    Hchildren) as [Hs Hf].
        auto.
      * unfold file_element, bind in Hproc.
        destruct (load_content (file_io_of child)); [|discriminate].
        inversion Hproc. subst m. simpl. auto.
Qed.

Lemma shaped_subtree n :
  forall path m, shaped path n -> In m (subtree n) ->
                 exists path', shaped path' m.
Proof.
  induction n as [name p language content|name p children IH]
    using xnode_induction; intros path m Hshaped Hm.
  - destruct Hm as [<-|[]]. exists path. exact Hshaped.
  - cbn [subtree] in Hm. destruct Hm as [<-|Hm]; [exists path; exact Hshaped|].
    apply shaped_directory in Hshaped. destruct Hshaped as [_ [_ Hchildren]].
    apply in_flat_map in Hm. destruct Hm as [child [Hchild Hm]].
    rewrite Forall_forall in IH, Hchildren.
    apply (IH child Hchild (path ++ [name]) m (Hchildren child Hchild) Hm).
Qed.

Lemma shaped_all_nodes path tree m :
  Forall (shaped path) tree -> In m (all_nodes tree) ->
  exists path', shaped path' m.
Proof.
  intros Hall Hm. unfold all_nodes in Hm. apply in_flat_map in Hm.
  destruct Hm as [n [Hn Hm]]. rewrite Forall_forall in Hall.
  apply (shaped_subtree n path m (Hall n Hn) Hm).
Qed.

(** X5.  The nodes under the root, and the children of every directory
    node, are in the lexicographic order of their names. *)
Theorem children_in_name_order :
  forall r root tree,
    build_structure_xml r [] root = Ok tree ->
    names_sorted tree /\
    (forall name path children,
        In (XDirectory name path children) (all_nodes tree) ->
        names_sorted children).
Proof.
  intros r root tree Hbuild.
  destruct (build_shaped root r [] tree Hbuild) as [Hsorted Hshaped].
  split; [exact Hsorted|]. intros name path children Hin.
  destruct (shaped_all_nodes [] tree _ Hshaped Hin) as [path' H].
  apply shaped_directory in H. tauto.
Qed.

Lemma children_in_name_order_witness :
  names_sorted
    [ XFile (py "a.py") (py "a.py") (py "python") (py "x=1");
      XDirectory (py "sub") (py "sub")
        [XFile (py "b.txt") (py "sub/b.txt") (py "text") (py "hi")] ]
  /\
  (forall name path children,
      In (XDirectory name path children)
         (all_nodes
            [ XFile (py "a.py") (py "a.py") (py "python") (py "x=1");
              XDirectory (py "sub") (py "sub")
                [XFile (py "b.txt") (py "sub/b.txt") (py "text") (py "hi")] ]) ->
      names_sorted children).
Proof.
  apply (children_in_name_order (mkRules [] [])
           (Directory None
              [ (py "sub", Directory None [(py "b.txt", text_file (py "hi"))]);
                (py "a.py", text_file (py "x=1")) ])).
  reflexivity.
Defined.

(** X6.  The path of a node under the root is its name, and the path of a
    child of a directory node is the path of that node, the separator and
    the name of the child. *)
Theorem node_paths_follow_the_tree :
  forall r root tree,
    build_structure_xml r [] root = Ok tree ->
    (forall n, In n tree -> node_path n = node_name n) /\
    (forall name path children child,
        In (XDirectory name path children) (all_nodes tree) ->
        In child children ->
        node_path child = path ++ os_sep :: node_name child).
Proof.
  intros r root tree Hbuild.
  destruct (build_shaped root r [] tree Hbuild) as [_ Hshaped].
  assert (forall path n, shaped path n ->
                         node_path n = relpath (path ++ [node_name n]))
    as Hpath.
  { intros path [name p children|name p language content] H.
    - apply shaped_directory in H. simpl. tauto.
    - simpl in H |- *. tauto. }
  split.
  - intros n Hn. rewrite Forall_forall in Hshaped.
    apply (Hpath [] n (Hshaped n Hn)).
  - intros name path children child Hdir Hchild.
    destruct (shaped_all_nodes [] tree _ Hshaped Hdir) as [path' H].
    apply shaped_directory in H. destruct H as [-> [_ Hchildren]].
    rewrite Forall_forall in Hchildren.
    rewrite (Hpath _ child (Hchildren child Hchild)).
    unfold relpath. rewrite join_app by (destruct path'; discriminate).
    reflexivity.
Qed.

Lemma node_paths_follow_the_tree_witness :
  (forall n,
      In n [ XDirectory (py "sub") (py "sub")
               [XFile (py "b.txt") (py "sub/b.txt") (py "text") (py "hi")] ] ->
      node_path n = node_name n) /\
  (forall name path children child,
      In (XDirectory name path children)
         (all_nodes
            [ XDirectory (py "sub") (py "sub")
                [XFile (py "b.txt") (py "sub/b.txt") (py "text") (py "hi")] ]) ->
      In child children ->
      node_path child = path ++ os_sep :: node_name child).
Proof.
  apply (node_paths_follow_the_tree (mkRules [] [])
           (Directory None
              [(py "sub", Directory None [(py "b.txt", text_file (py "hi"))])])).
  reflexivity.
Defined.

(** X7.  The language of every file node is "text" or a value of the
    table; when the name of the node is made of ASCII characters, it is the
    language that the name gives. *)
Theorem file_language_from_name :
  forall r root tree name path language content,
    build_structure_xml r [] root = Ok tree ->
    In (XFile name path language content) (all_nodes tree) ->
    (language = py "text" \/ In language (map snd extension_to_language)) /\
    (Forall (fun c => (c < 128)%N) name -> language = language_of name).
Proof.
  intros r root tree name path language content Hbuild Hin.
  destruct (build_shaped root r [] tree Hbuild) as [_ Hshaped].
  destruct (shaped_all_nodes [] tree _ Hshaped Hin) as [path' [_ ->]].
  split; [|reflexivity]. unfold language_of.
  generalize (lower (splitext_ext name)). intros key.
  induction extension_to_language as [|[k v] table IH]; simpl.
  - left. reflexivity.
  - destruct (str_eqb k key); [right; left; reflexivity|].
    destruct IH as [IH|IH]; [left; exact IH | right; right; exact IH].
Qed.

Lemma file_language_from_name_witness :
  (py "python" = py "text" \/
   In (py "python") (map snd extension_to_language)) /\
  py "python" = language_of (py "a.py").
Proof.
  destruct (file_language_from_name (mkRules [] [])
              (Directory None [(py "a.py", text_file (py "x=1"))])
              [XFile (py "a.py") (py "a.py") (py "python") (py "x=1")]
              (py "a.py") (py "a.py") (py "python") (py "x=1")
              eq_refl (or_introl eq_refl)) as [Hvalue Hname].
  split; [exact Hvalue|]. apply Hname. repeat constructor.
Defined.

(* ================================================================= *)
(** * The language of a name *)

Lemma from_last_dot_none s : ~ In dot s -> from_last_dot s = None.
Proof.
  induction s as [|c s IH]; intros H; [reflexivity|]. simpl.
  rewrite IH by (intros Hin; apply H; right; exact Hin).
  destruct (N.eqb_spec c dot) as [->|Hc]; [|reflexivity].
  exfalso. apply H. left. reflexivity.
Qed.

Lemma from_last_dot_app stem ext :
  ~ In dot ext -> from_last_dot (stem ++ dot :: ext) = Some (dot :: ext).
Proof.
  intros Hext. induction stem as [|c stem IH].
  - simpl. rewrite (from_last_dot_none ext Hext). reflexivity.
  - change ((c :: stem) ++ dot :: ext) with (c :: stem ++ dot :: ext).
    cbn [from_last_dot]. rewrite IH. reflexivity.
Qed.

Lemma lower_cons_dot ext : lower (dot :: ext) = dot :: lower ext.
Proof. reflexivity. Qed.

(** X8.  A name without a dot has the language "text".  For a name that is
    not hidden and ends with a dot followed by an extension of ASCII
    characters without a dot, only that last extension counts, whatever its
    case: the language is what the table gives for the dot and the
    lower-cased extension, or "text". *)
Theorem language_of_last_extension :
  (forall name,
      ~ In slash name -> ~ In dot name -> language_of name = py "text")
  /\
  (forall stem ext,
      hidden (stem ++ dot :: ext) = false ->
      ~ In slash (stem ++ dot :: ext) ->
      ~ In dot ext ->
      Forall (fun c => (c < 128)%N) ext ->
      language_of (stem ++ dot :: ext)
      = dict_get extension_to_language (dot :: lower ext) (py "text")).
Proof.
  split.
  - intros name Hslash Hdot. unfold language_of, splitext_ext.
    rewrite (split_no_sep slash name Hslash). cbn [last].
    rewrite (from_last_dot_none name Hdot). reflexivity.
  - intros stem ext Hhidden Hslash Hdot _. unfold language_of, splitext_ext.
    rewrite (split_no_sep slash _ Hslash). cbn [last].
    rewrite (from_last_dot_app stem ext Hdot).
    replace (length (stem ++ dot :: ext) - length (dot :: ext))
      with (length stem + 0)
      by (rewrite length_app; cbn [length]; lia).
    rewrite firstn_app_2. cbn [firstn]. rewrite app_nil_r.
    destruct stem as [|c stem].
    { cbn [app] in Hhidden. rewrite hidden_cons, N.eqb_refl in Hhidden.
      discriminate. }
    rewrite <- app_comm_cons, hidden_cons in Hhidden.
    cbn [forallb]. rewrite N.eqb_sym, Hhidden. cbn [andb].
    rewrite lower_cons_dot. reflexivity.
Qed.

Lemma language_of_last_extension_witness :
  language_of (py "README") = py "text" /\
  language_of (py "Main.test" ++ dot :: py "PY") = py "python".
Proof.
  split.
  - apply (proj1 language_of_last_extension (py "README")).
    + intros H. simpl in H. intuition discriminate.
    + intros H. simpl in H. intuition discriminate.
  - apply (proj2 language_of_last_extension (py "Main.test") (py "PY")).
    + reflexivity.
    + intros H. simpl in H. intuition discriminate.
    + intros H. simpl in H. intuition discriminate.
    + repeat constructor.
Defined.

(* ================================================================= *)
(** * Entries that are skipped *)

Lemma lookup_app l1 l2 item :
  lookup (l1 ++ l2) item
  = match lookup l1 item with
    | Some e => Some e
    | None => lookup l2 item
    end.
Proof.
  induction l1 as [|[n c] l1 IH]; simpl; [reflexivity|].
  destruct (str_eqb n item); [reflexivity | exact IH].
Qed.

(** X9.  An entry whose name is hidden, or that is excluded, is neither
    listed, measured nor read: the tree built is the same whatever lies
    behind that name. *)
Theorem skipped_entry_is_not_inspected :
  forall r path before after name e e',
    (hidden name = true \/
     (should_exclude_path (exclude_folders r) (exclude_files r) (isfile e)
        (relpath (path ++ [name])) = true /\
      should_exclude_path (exclude_folders r) (exclude_files r) (isfile e')
        (relpath (path ++ [name])) = true)) ->
    build_structure_xml r path (Directory None (before ++ (name, e) :: after))
    = build_structure_xml r path
        (Directory None (before ++ (name, e') :: after)).
Proof.
  intros r path before after name e e' Hskip.
  rewrite !build_structure_xml_listed, !map_app. cbn [map fst].
  apply for_items_ext. intros item _. unfold loop_body.
  destruct (hidden item) eqn:Hhid; [reflexivity|].
  rewrite !lookup_app. destruct (lookup before item); [reflexivity|].
  cbn [lookup]. destruct (str_eqb name item) eqn:Hname; [|reflexivity].
  apply str_eqb_eq in Hname. subst item.
  destruct Hskip as [Hh | [He He']]; [congruence|].
  unfold process_item. rewrite He, He'. reflexivity.
Qed.

Lemma skipped_entry_is_not_inspected_witness :
  build_structure_xml (mkRules [py "build"] []) []
    (Directory None
       ([(py "a.py", text_file (py "x=1"))]
        ++ (py "build", Directory None []) :: []))
  = build_structure_xml (mkRules [py "build"] []) []
      (Directory None
         ([(py "a.py", text_file (py "x=1"))]
          ++ (py "build", Directory (Some io_error) []) :: [])).
Proof.
  apply (skipped_entry_is_not_inspected (mkRules [py "build"] []) []
           [(py "a.py", text_file (py "x=1"))] [] (py "build")
           (Directory None []) (Directory (Some io_error) [])).
  right. split; reflexivity.
Defined.

(* ================================================================= *)
(** * Errors that abort the run *)

Lemma run_aborts_in_traversal toprettyxml w root repo_folder output_path r e :
  repo_entry w = Some root -> isdir root = true ->
  build_structure_xml r [] root = Raise e ->
  describe_repo_contents_xml toprettyxml w repo_folder output_path
    (Some (exclude_folders r)) (Some (exclude_files r))
  = mkOutcome (Raise e) None /\
  main toprettyxml w repo_folder output_path
    (exclude_folders r) (exclude_files r)
  = mkOutcome (Ok 1%N) None.
Proof.
  intros Hroot Hdir Hbuild.
  assert (describe_repo_contents_xml toprettyxml w repo_folder output_path
            (Some (exclude_folders r)) (Some (exclude_files r))
          = mkOutcome (Raise e) None) as Hdescribe.
  { unfold describe_repo_contents_xml, final_xml_of. cbn [or_default].
    replace (mkRules (exclude_folders r) (exclude_files r)) with r
      by (destruct r; reflexivity).
    rewrite Hroot, Hdir. cbn [negb]. unfold document_of.
    rewrite Hbuild. reflexivity. }
  split; [exact Hdescribe|].
  unfold main. rewrite Hroot, Hdir. cbn [negb]. rewrite Hdescribe.
  reflexivity.
Qed.

(** X10.  Only [PermissionError] is recovered from when a directory is
    listed.  When the listing of the root raises another exception, the
    operation raises it; when the listing of an included directory that the
    traversal comes to raises another exception, the operation raises.  In
    both cases nothing is written and [main] returns 1. *)
Theorem other_listing_errors_abort :
  forall toprettyxml w root repo_folder output_path r,
    repo_entry w = Some root -> isdir root = true ->
    (forall err inside,
        root = Directory (Some err) inside ->
        is_PermissionError err = false ->
        describe_repo_contents_xml toprettyxml w repo_folder output_path
          (Some (exclude_folders r)) (Some (exclude_files r))
        = mkOutcome (Raise err) None /\
        main toprettyxml w repo_folder output_path
          (exclude_folders r) (exclude_files r)
        = mkOutcome (Ok 1%N) None)
    /\
    (forall segments err inside,
        visits r [] root segments = true ->
        resolve root segments = Some (Directory (Some err) inside) ->
        included r segments (last segments []) (Directory (Some err) inside)
        = true ->
        is_PermissionError err = false ->
        exists e,
          describe_repo_contents_xml toprettyxml w repo_folder output_path
            (Some (exclude_folders r)) (Some (exclude_files r))
          = mkOutcome (Raise e) None /\
          main toprettyxml w repo_folder output_path
            (exclude_folders r) (exclude_files r)
          = mkOutcome (Ok 1%N) None).
Proof.
  intros toprettyxml w root repo_folder output_path r Hroot Hdir. split.
  - intros err inside -> Hperm.
    apply (run_aborts_in_traversal toprettyxml w _ repo_folder output_path
             r err Hroot Hdir).
    rewrite build_structure_xml_unlistable, Hperm. reflexivity.
  - intros segments err inside Hv Hres Hinc Hperm.
    destruct (build_structure_xml r [] root) as [tree|e] eqn:Hbuild.
    + destruct (included_directory_node r root tree segments _ _
                  Hbuild Hv Hres Hinc) as [children [Hchildren _]].
      rewrite build_structure_xml_unlistable, Hperm in Hchildren.
      discriminate.
    + exists e.
      apply (run_aborts_in_traversal toprettyxml w root repo_folder
               output_path r e Hroot Hdir Hbuild).
Qed.

Lemma other_listing_errors_abort_witness :
  exists e,
    describe_repo_contents_xml paths_renderer
      (mkWorld
         (Some (Directory None
                  [ (py "a.py", text_file (py "x=1"));
                    (py "mnt", Directory (Some io_error) []) ]))
         None None)
      (py "/home/u/repo") (py "/tmp/out.xml") (Some []) (Some [])
    = mkOutcome (Raise e) None /\
    main paths_renderer
      (mkWorld
         (Some (Directory None
                  [ (py "a.py", text_file (py "x=1"));
                    (py "mnt", Directory (Some io_error) []) ]))
         None None)
      (py "/home/u/repo") (py "/tmp/out.xml") [] []
    = mkOutcome (Ok 1%N) None.
Proof.
  apply (proj2 (other_listing_errors_abort paths_renderer
                  (mkWorld
                     (Some (Directory None
                              [ (py "a.py", text_file (py "x=1"));
                                (py "mnt", Directory (Some io_error) []) ]))
                     None None)
                  (Directory None
                     [ (py "a.py", text_file (py "x=1"));
                       (py "mnt", Directory (Some io_error) []) ])
                  (py "/home/u/repo") (py "/tmp/out.xml") (mkRules [] [])
                  eq_refl eq_refl)
           [py "mnt"] io_error []).
  - reflexivity.
  - reflexivity.
  - reflexivity.
  - reflexivity.
Defined.

(* ================================================================= *)
(** * The output stage *)

Lemma dirname_bare output_path :
  ~ In slash output_path -> dirname output_path = [].
Proof.
  intros H. unfold dirname. rewrite (split_no_sep slash _ H). reflexivity.
Qed.

Lemma split_two sep s :
  In sep s -> exists a b rest, split sep s = a :: b :: rest.
Proof.
  induction s as [|c s IH]; intros H; [contradiction|]. cbn [split].
  pose proof (split_not_nil sep s) as Hne.
  destruct (N.eqb_spec c sep) as [->|Hc].
  - destruct (split sep s) as [|b rest]; [contradiction|].
    exists [], b, rest. reflexivity.
  - destruct H as [H|H]; [congruence|].
    destruct (IH H) as [a [b [rest ->]]]. exists (c :: a), b, rest.
    reflexivity.
Qed.

Lemma rstrip_slash_not_nil s :
  forallb (N.eqb slash) s = false -> rstrip_slash s <> [].
Proof.
  induction s as [|c s IH]; [discriminate|]. cbn [forallb rstrip_slash].
  intros H. destruct (rstrip_slash s) eqn:Hs; [|discriminate].
  destruct (forallb (N.eqb slash) s).
  - rewrite andb_true_r in H. rewrite N.eqb_sym, H. discriminate.
  - exfalso. apply IH; reflexivity.
Qed.

Lemma dirname_not_nil output_path :
  In slash output_path -> dirname output_path <> [].
Proof.
  intros H. unfold dirname.
  destruct (split_two slash output_path H) as [a [b [rest ->]]].
  change (removelast (a :: b :: rest)) with (a :: removelast (b :: rest)).
  cbv beta iota zeta.
  set (head := join [slash] (a :: removelast (b :: rest)) ++ [slash]).
  destruct (forallb (N.eqb slash) head) eqn:Hall.
  - unfold head. intros Hnil. apply app_eq_nil in Hnil.
    destruct Hnil as [_ Hnil]. discriminate.
  - apply rstrip_slash_not_nil, Hall.
Qed.

Lemma main_after_failure toprettyxml w root source_path output_path
    exclude exclude_files e :
  repo_entry w = Some root -> isdir root = true ->
  describe_repo_contents_xml toprettyxml w source_path output_path
    (Some exclude) (Some exclude_files)
  = mkOutcome (Raise e) None ->
  main toprettyxml w source_path output_path exclude exclude_files
  = mkOutcome (Ok 1%N) None.
Proof.
  intros Hroot Hdir Hdescribe. unfold main.
  rewrite Hroot, Hdir. cbn [negb]. rewrite Hdescribe. reflexivity.
Qed.

(** X11.  When the output path is a bare file name (it holds no '/'), no
    directory is made: the outcome of the operation is the same whether
    [os.makedirs] would raise or not. *)
Theorem bare_output_name_makes_no_directory :
  forall toprettyxml root makedirs makedirs' open_output repo_folder
         output_path exclude_folders exclude_files,
    ~ In slash output_path ->
    describe_repo_contents_xml toprettyxml
      (mkWorld root makedirs open_output) repo_folder output_path
      exclude_folders exclude_files
    = describe_repo_contents_xml toprettyxml
        (mkWorld root makedirs' open_output) repo_folder output_path
        exclude_folders exclude_files.
Proof.
  intros toprettyxml root makedirs makedirs' open_output repo_folder
    output_path exclude_folders exclude_files Hbare.
  unfold describe_repo_contents_xml, final_xml_of.
  cbn [repo_entry makedirs_raises open_output_raises].
  rewrite (dirname_bare _ Hbare). reflexivity.
Qed.

Lemma bare_output_name_makes_no_directory_witness :
  describe_repo_contents_xml paths_renderer
    (mkWorld (Some sample_root) (Some io_error) None)
    (py "/home/u/repo") (py "out.xml") None None
  = describe_repo_contents_xml paths_renderer
      (mkWorld (Some sample_root) None None)
      (py "/home/u/repo") (py "out.xml") None None.
Proof.
  apply (bare_output_name_makes_no_directory paths_renderer
           (Some sample_root) (Some io_error) None None
           (py "/home/u/repo") (py "out.xml") None None).
  intros H. simpl in H. intuition discriminate.
Defined.

(** X12.  After a traversal that ended normally, a failure of the output
    stage aborts the run with that very exception, nothing is written and
    [main] returns 1: [os.makedirs] raising when the output path has a
    directory part, the rendering raising, or the opening of the output file
    raising. *)
Theorem output_failures_abort :
  forall toprettyxml w root repo_folder output_path r doc e,
    repo_entry w = Some root -> isdir root = true ->
    document_of root repo_folder r = Ok doc ->
    (In slash output_path /\ makedirs_raises w = Some e) \/
    (makedirs_raises w = None /\ toprettyxml doc = Raise e) \/
    (makedirs_raises w = None /\
     (exists pretty_xml, toprettyxml doc = Ok pretty_xml) /\
     open_output_raises w = Some e) ->
    describe_repo_contents_xml toprettyxml w repo_folder output_path
      (Some (exclude_folders r)) (Some (exclude_files r))
    = mkOutcome (Raise e) None /\
    main toprettyxml w repo_folder output_path
      (exclude_folders r) (exclude_files r)
    = mkOutcome (Ok 1%N) None.
Proof.
  intros toprettyxml w root repo_folder output_path r doc e
    Hroot Hdir Hdoc Hfail.
  assert (describe_repo_contents_xml toprettyxml w repo_folder output_path
            (Some (exclude_folders r)) (Some (exclude_files r))
          = mkOutcome (Raise e) None) as Hdescribe.
  { unfold describe_repo_contents_xml, final_xml_of. cbn [or_default].
    replace (mkRules (exclude_folders r) (exclude_files r)) with r
      by (destruct r; reflexivity).
    rewrite Hroot, Hdir. cbn [negb]. rewrite Hdoc. cbn [bind].
    destruct Hfail as [[Hslash Hmk] | [[Hmk Hrender] | [Hmk [[p Hp] Hopen]]]].
    - apply dirname_not_nil, str_eqb_neq in Hslash.
      rewrite Hslash, Hmk. reflexivity.
    - rewrite Hmk, Hrender.
      destruct (str_eqb (dirname output_path) []); reflexivity.
    - rewrite Hmk, Hp, Hopen.
      destruct (str_eqb (dirname output_path) []); reflexivity. }
  split; [exact Hdescribe|].
  apply (main_after_failure toprettyxml w root repo_folder output_path
           _ _ e Hroot Hdir Hdescribe).
Qed.

Lemma output_failures_abort_witness :
  describe_repo_contents_xml paths_renderer
    (mkWorld (Some (Directory None [(py "a.py", text_file (py "x=1"))]))
       (Some permission_denied) None)
    (py "/home/u/repo") (py "/root/out.xml") (Some []) (Some [])
  = mkOutcome (Raise permission_denied) None /\
  main paths_renderer
    (mkWorld (Some (Directory None [(py "a.py", text_file (py "x=1"))]))
       (Some permission_denied) None)
    (py "/home/u/repo") (py "/root/out.xml") [] []
  = mkOutcome (Ok 1%N) None.
Proof.
  apply (output_failures_abort paths_renderer
           (mkWorld (Some (Directory None [(py "a.py", text_file (py "x=1"))]))
              (Some permission_denied) None)
           (Directory None [(py "a.py", text_file (py "x=1"))])
           (py "/home/u/repo") (py "/root/out.xml") (mkRules [] [])
           (mkDocument (py "/home/u/repo") (py "repo") None None
              [XFile (py "a.py") (py "a.py") (py "python") (py "x=1")])
           permission_denied).
  - reflexivity.
  - reflexivity.
  - reflexivity.
  - left. split; [|reflexivity]. simpl. auto.
Defined.

(* ================================================================= *)
(** * The removal of the empty lines *)

Lemma filter_twice (A : Type) (f : A -> bool) l :
  filter f (filter f l) = filter f l.
Proof.
  induction l as [|x l IH]; simpl; [reflexivity|].
  destruct (f x) eqn:Hx; simpl; rewrite ?Hx, IH; reflexivity.
Qed.

Lemma filter_keeps_forall (A : Type) (P : A -> Prop) (f : A -> bool) l :
  Forall P l -> Forall P (filter f l).
Proof.
  induction 1 as [|x l Hx Hl IH]; simpl; [constructor|].
  destruct (f x); [constructor; assumption | exact IH].
Qed.

Lemma filter_forall_true (A : Type) (f : A -> bool) l :
  Forall (fun x => f x = true) (filter f l).
Proof.
  induction l as [|x l IH]; simpl; [constructor|].
  destruct (f x) eqn:Hx; [constructor; assumption | exact IH].
Qed.

(** The lines of the text without its empty lines are the lines kept. *)
Lemma remove_empty_lines_lines pretty_xml :
  filter strip_nonempty (split 10%N pretty_xml) <> [] ->
  split 10%N (remove_empty_lines pretty_xml)
  = filter strip_nonempty (split 10%N pretty_xml).
Proof.
  intros Hne. unfold remove_empty_lines. apply split_join; [exact Hne|].
  apply filter_keeps_forall, split_parts_no_sep.
Qed.

(** X13.  Removing the empty lines a second time changes nothing; in a
    non-empty result every line holds a character that is not white space;
    and a text all of whose lines hold such a character is left as it
    is. *)
Theorem remove_empty_lines_properties :
  (forall pretty_xml,
      remove_empty_lines (remove_empty_lines pretty_xml)
      = remove_empty_lines pretty_xml)
  /\
  (forall pretty_xml,
      remove_empty_lines pretty_xml <> [] ->
      Forall (fun line => strip_nonempty line = true)
             (split 10%N (remove_empty_lines pretty_xml)))
  /\
  (forall pretty_xml,
      Forall (fun line => strip_nonempty line = true)
             (split 10%N pretty_xml) ->
      remove_empty_lines pretty_xml = pretty_xml).
Proof.
  split; [|split].
  - intros pretty_xml.
    destruct (filter strip_nonempty (split 10%N pretty_xml)) eqn:Hkept.
    + assert (remove_empty_lines pretty_xml = []) as ->
        by (unfold remove_empty_lines; rewrite Hkept; reflexivity).
      reflexivity.
    + transitivity
        (join [10%N]
           (filter strip_nonempty
              (split 10%N (remove_empty_lines pretty_xml))));
        [reflexivity|].
      rewrite remove_empty_lines_lines by (rewrite Hkept; discriminate).
      rewrite filter_twice. reflexivity.
  - intros pretty_xml Hne.
    destruct (filter strip_nonempty (split 10%N pretty_xml)) eqn:Hkept.
    + exfalso. apply Hne. unfold remove_empty_lines. rewrite Hkept.
      reflexivity.
    + rewrite remove_empty_lines_lines by (rewrite Hkept; discriminate).
      apply filter_forall_true.
  - intros pretty_xml Hall. unfold remove_empty_lines.
    rewrite filter_all_true.
    + apply join_split.
    + apply forallb_forall. rewrite Forall_forall in Hall. exact Hall.
Qed.

Lemma remove_empty_lines_properties_witness :
  Forall (fun line => strip_nonempty line = true)
         (split 10%N (remove_empty_lines [60; 97; 62; 10; 32; 10; 60; 98; 62]%N))
  /\ remove_empty_lines [60; 97; 62; 10; 60; 98; 62]%N
     = [60; 97; 62; 10; 60; 98; 62]%N.
Proof.
  split.
  - apply (proj1 (proj2 remove_empty_lines_properties)
             [60; 97; 62; 10; 32; 10; 60; 98; 62]%N).
    discriminate.
  - apply (proj2 (proj2 remove_empty_lines_properties)
             [60; 97; 62; 10; 60; 98; 62]%N).
    repeat constructor.
Defined.

(* ================================================================= *)
(** * The attributes of the document *)

Lemma basename_last_segment parent name :
  ~ In slash name -> basename (parent ++ slash :: name) = name.
Proof.
  intros H. unfold basename.
  rewrite split_app_sep, (split_no_sep slash name H).
  apply last_last.
Qed.

Lemma basename_trailing_slash parent : basename (parent ++ [slash]) = [].
Proof.
  unfold basename. rewrite split_app_sep. cbn [split]. apply last_last.
Qed.

Lemma attribute_of_none l : attribute_of l = None <-> l = [].
Proof. destruct l; simpl; split; (reflexivity || discriminate). Qed.

(** X14.  The name that the document records is the last component of
    [repo_folder] as it was given (empty when [repo_folder] ends with '/'),
    and each of the two attributes for the exclusion lists is absent exactly
    when the list is empty. *)
Theorem document_records_the_run :
  forall root repo_folder r doc,
    document_of root repo_folder r = Ok doc ->
    (forall parent name,
        repo_folder = parent ++ slash :: name -> ~ In slash name ->
        doc_name doc = name) /\
    (forall parent, repo_folder = parent ++ [slash] -> doc_name doc = []) /\
    (doc_excluded_folders doc = None <-> exclude_folders r = []) /\
    (doc_excluded_files doc = None <-> exclude_files r = []).
Proof.
  intros root repo_folder r doc Hdoc. unfold document_of, bind in Hdoc.
  destruct (build_structure_xml r [] root); [|discriminate].
  inversion Hdoc. subst doc. cbn.
  split; [|split; [|split]].
  - intros parent name -> Hname. apply basename_last_segment, Hname.
  - intros parent ->. apply basename_trailing_slash.
  - apply attribute_of_none.
  - apply attribute_of_none.
Qed.

Lemma document_records_the_run_witness :
  (forall parent name,
      py "/home/u/repo" = parent ++ slash :: name -> ~ In slash name ->
      py "repo" = name) /\
  (forall parent, py "/home/u/repo" = parent ++ [slash] -> py "repo" = []) /\
  (Some (py "sub, build") = None <-> [py "sub"; py "build"] = []) /\
  (@None pystr = None <-> @nil pystr = []).
Proof.
  apply (document_records_the_run
           (Directory None [(py "a.py", text_file (py "x=1"))])
           (py "/home/u/repo") (mkRules [py "sub"; py "build"] [])
           (mkDocument (py "/home/u/repo") (py "repo")
              (Some (py "sub, build")) None
              [XFile (py "a.py") (py "a.py") (py "python") (py "x=1")])).
  reflexivity.
Defined.

(* ================================================================= *)
(** * The content of a file that was measured and read *)

Lemma uint_digits_allowed u :
  forallb allowed_char (py (NilEmpty.string_of_uint u)) = true.
Proof. induction u; simpl; try reflexivity; exact IHu. Qed.

Lemma str_of_int_allowed n : forallb allowed_char (str_of_int n) = true.
Proof.
  unfold str_of_int, NilZero.string_of_uint.
  destruct (N.to_uint n); try reflexivity; apply uint_digits_allowed.
Qed.

Lemma forallb_app_true (A : Type) (f : A -> bool) l1 l2 :
  forallb f l1 = true -> forallb f l2 = true -> forallb f (l1 ++ l2) = true.
Proof. intros H1 H2. rewrite forallb_app, H1, H2. reflexivity. Qed.

Lemma filter_forallb (A : Type) (f : A -> bool) l :
  forallb f (filter f l) = true.
Proof.
  induction l as [|x l IH]; simpl; [reflexivity|].
  destruct (f x) eqn:Hx; simpl; rewrite ?Hx; exact IH.
Qed.

(** X15.  The content given for a file whose size was obtained, and that
    was either too large or read, holds no control character other than
    tab, newline and carriage return. *)
Theorem measured_and_read_content_is_clean :
  forall f file_size content,
    getsize f = Ok file_size ->
    ((size_limit < file_size)%N \/ exists text, read f = Ok text) ->
    load_content f = Ok content ->
    forallb allowed_char content = true.
Proof.
  intros f file_size content Hsize Hcase Hload.
  unfold load_content in Hload. rewrite Hsize in Hload.
  destruct (size_limit <? file_size)%N eqn:Hlimit.
  - inversion Hload. subst content. unfold too_large_text.
    apply forallb_app_true; [reflexivity|].
    apply forallb_app_true; [apply str_of_int_allowed | reflexivity].
  - destruct Hcase as [Hlarge | [text Hread]].
    + apply N.ltb_lt in Hlarge. congruence.
    + rewrite Hread in Hload. inversion Hload. subst content.
      rewrite sanitize_filter. apply filter_forallb.
Qed.

Lemma measured_and_read_content_is_clean_witness :
  forallb allowed_char (py "[File too large: 10485761 bytes]") = true.
Proof.
  apply (measured_and_read_content_is_clean
           (mkFile (Ok 10485761%N) (Raise io_error)) 10485761%N
           (py "[File too large: 10485761 bytes]")).
  - reflexivity.
  - left. reflexivity.
  - reflexivity.
Defined.

(* ================================================================= *)
(** * Which entries have a node *)

(** X16.  The paths of the nodes of the tree are exactly the relative paths
    of the included entries that the traversal comes to. *)
Theorem tree_holds_exactly_the_included_entries :
  forall r root tree path,
    build_structure_xml r [] root = Ok tree ->
    ((exists n, In n (all_nodes tree) /\ node_path n = path) <->
     (exists segments e,
         visits r [] root segments = true /\
         resolve root segments = Some e /\
         included r segments (last segments []) e = true /\
         path = relpath segments)).
Proof.
  intros r root tree path Hbuild. split.
  - intros [n [Hn Hpath]].
    destruct (build_sound root r [] tree n Hbuild Hn)
      as [segments [e [Hv [Hres [Hinc [_ [Hp _]]]]]]].
    exists segments, e. cbn [app] in Hinc, Hp.
    repeat split; try assumption. congruence.
  - intros [segments [e [Hv [Hres [Hinc ->]]]]].
    destruct (included_entry_node r root tree segments e Hbuild Hv Hres Hinc)
      as [n [Hn [Hpath _]]].
    exists n. auto.
Qed.

Lemma tree_holds_exactly_the_included_entries_witness :
  (exists n,
      In n (all_nodes
              [ XDirectory (py "sub") (py "sub")
                  [XFile (py "b.txt") (py "sub/b.txt") (py "text") (py "hi")] ])
      /\ node_path n = py "sub/b.txt")
  <->
  (exists segments e,
      visits (mkRules [] []) []
        (Directory None
           [(py "sub", Directory None [(py "b.txt", text_file (py "hi"))])])
        segments = true /\
      resolve
        (Directory None
           [(py "sub", Directory None [(py "b.txt", text_file (py "hi"))])])
        segments = Some e /\
      included (mkRules [] []) segments (last segments []) e = true /\
      py "sub/b.txt" = relpath segments).
Proof.
  apply (tree_holds_exactly_the_included_entries (mkRules [] [])
           (Directory None
              [(py "sub", Directory None [(py "b.txt", text_file (py "hi"))])])).
  reflexivity.
Defined.

Lemma visits_on_the_way_not_hidden segments :
  forall r path d,
    visits r path d segments = true ->
    Forall (fun name => hidden name = false) (removelast segments).
Proof.
  induction segments as [|name rest IH]; intros r path d Hv; [constructor|].
  destruct d as [f|f|[err|] items]; try discriminate. simpl in Hv.
  destruct (lookup items name) as [child|]; [|discriminate].
  destruct rest as [|name' rest]; [constructor|].
  apply andb_true_iff in Hv. destruct Hv as [Hv Hrest].
  apply andb_true_iff in Hv. destruct Hv as [Hinc _].
  apply included_inv in Hinc. destruct Hinc as [Hhid _].
  change (removelast (name :: name' :: rest))
    with (name :: removelast (name' :: rest)).
  constructor; [exact Hhid|]. apply (IH r (path ++ [name]) child Hrest).
Qed.

(** X17.  Nothing that lies in a hidden directory has a node: the names
    that lead from [repo_folder] to the entry of a node are the segments of
    its path, and none of them begins with a dot. *)
Theorem no_node_below_a_hidden_directory :
  forall r root tree n,
    build_structure_xml r [] root = Ok tree ->
    In n (all_nodes tree) ->
    (exists segments e,
        visits r [] root segments = true /\
        resolve root segments = Some e /\
        node_path n = relpath segments /\
        Forall (fun name => hidden name = false) segments) /\
    (valid_names root ->
     Forall (fun name => hidden name = false)
            (split os_sep (node_path n))).
Proof.
  intros r root tree n Hbuild Hn.
  destruct (build_sound root r [] tree n Hbuild Hn)
    as [segments [e [Hv [Hres [Hinc [_ [Hpath _]]]]]]].
  cbn [app] in Hinc, Hpath.
  pose proof (visits_not_nil _ _ _ _ Hv) as Hne.
  assert (Forall (fun name => hidden name = false) segments) as Hnames.
  { rewrite <- (removelast_last segments Hne). apply Forall_app. split.
    - apply (visits_on_the_way_not_hidden segments r [] root Hv).
    - apply included_inv in Hinc. destruct Hinc as [Hhid _].
      constructor; [exact Hhid | constructor]. }
  split.
  - exists segments, e. auto.
  - intros Hvalid. rewrite Hpath. unfold relpath.
    rewrite (split_join os_sep segments Hne
               (visits_valid_segments segments r [] root Hvalid Hv)).
    exact Hnames.
Qed.

Lemma no_node_below_a_hidden_directory_witness :
  Forall (fun name => hidden name = false)
         (split os_sep
            (node_path
               (XFile (py "b.txt") (py "sub/b.txt") (py "text") (py "hi")))).
Proof.
  refine (proj2 (no_node_below_a_hidden_directory (mkRules [] [])
                   (Directory None
                      [ (py ".git",
                         Directory None [(py "config", text_file (py "c"))]);
                        (py "sub",
                         Directory None [(py "b.txt", text_file (py "hi"))]) ])
                   [ XDirectory (py "sub") (py "sub")
                       [XFile (py "b.txt") (py "sub/b.txt") (py "text")
                          (py "hi")] ]
                   (XFile (py "b.txt") (py "sub/b.txt") (py "text") (py "hi"))
                   eq_refl _) _).
  - simpl. auto.
  - simpl. repeat split; intros H; simpl in H;
      repeat (destruct H as [H|H]; [discriminate|]); exact H.
Defined.

(* ================================================================= *)
(** * More rules, fewer nodes *)

Lemma existsb_incl (A : Type) (f : A -> bool) l l' :
  incl l l' -> existsb f l = true -> existsb f l' = true.
Proof.
  intros Hincl H. apply existsb_exists in H. destruct H as [x [Hx Hf]].
  apply existsb_exists. exists x. auto.
Qed.

Lemma should_exclude_path_more_rules r r' is_file rel_path :
  rules_extend r r' ->
  should_exclude_path (exclude_folders r) (exclude_files r) is_file rel_path
  = true ->
  should_exclude_path (exclude_folders r') (exclude_files r') is_file rel_path
  = true.
Proof.
  intros [Hfolders Hfiles]. unfold should_exclude_path, file_rule, folder_rule.
  destruct is_file; cbn [andb].
  - destruct (existsb _ (exclude_files r)) eqn:H1.
    + rewrite (existsb_incl _ _ _ _ Hfiles H1). reflexivity.
    + intros H2. rewrite (existsb_incl _ _ _ _ Hfolders H2).
      destruct (existsb _ (exclude_files r')); reflexivity.
  - intros H2. apply (existsb_incl _ _ _ _ Hfolders H2).
Qed.

Lemma included_fewer_rules r r' item_path item e :
  rules_extend r r' ->
  included r' item_path item e = true -> included r item_path item e = true.
Proof.
  intros Hext. unfold included. intros H. apply andb_true_iff in H.
  destruct H as [Hhid Hex]. rewrite Hhid. cbn [andb].
  apply negb_true_iff in Hex. apply negb_true_iff.
  destruct (should_exclude_path (exclude_folders r) (exclude_files r)
              (isfile e) (relpath item_path)) eqn:H; [|reflexivity].
  rewrite (should_exclude_path_more_rules r r' _ _ Hext H) in Hex.
  discriminate.
Qed.

Lemma visits_fewer_rules segments :
  forall r r' path d,
    rules_extend r r' ->
    visits r' path d segments = true -> visits r path d segments = true.
Proof.
  induction segments as [|name rest IH]; intros r r' path d Hext Hv;
    [discriminate|].
  destruct d as [f|f|[err|] items]; try discriminate. simpl in Hv |- *.
  destruct (lookup items name) as [child|]; [|discriminate].
  destruct rest as [|name' rest]; [reflexivity|].
  apply andb_true_iff in Hv. destruct Hv as [Hv Hrest].
  apply andb_true_iff in Hv. destruct Hv as [Hinc Hdir].
  rewrite (included_fewer_rules r r' _ _ _ Hext Hinc), Hdir.
  apply (IH r r' (path ++ [name]) child Hext Hrest).
Qed.

(** X18.  Adding exclusion patterns never adds a node: every node of the
    tree built under the larger rules has, in the tree built under the
    smaller rules, a node of the same path, name and kind. *)
Theorem more_rules_fewer_nodes :
  forall r r' root tree tree' n',
    rules_extend r r' ->
    build_structure_xml r [] root = Ok tree ->
    build_structure_xml r' [] root = Ok tree' ->
    In n' (all_nodes tree') ->
    exists n,
      In n (all_nodes tree) /\
      node_path n = node_path n' /\
      node_name n = node_name n' /\
      is_directory n = is_directory n'.
Proof.
  intros r r' root tree tree' n' Hext Hbuild Hbuild' Hn'.
  destruct (build_sound root r' [] tree' n' Hbuild' Hn')
    as [segments [e [Hv [Hres [Hinc [Hname [Hpath Hkind]]]]]]].
  cbn [app] in Hinc, Hpath.
  destruct (included_entry_node r root tree segments e Hbuild
              (visits_fewer_rules segments r r' [] root Hext Hv) Hres
              (included_fewer_rules r r' _ _ _ Hext Hinc))
    as [n [Hn [Hp [Hnm Hk]]]].
  exists n. repeat split; congruence.
Qed.

Lemma more_rules_fewer_nodes_witness :
  exists n,
    In n (all_nodes
            [ XFile (py "a.py") (py "a.py") (py "python") (py "x=1");
              XDirectory (py "sub") (py "sub") [] ]) /\
    node_path n = py "a.py" /\
    node_name n = py "a.py" /\
    is_directory n = false.
Proof.
  apply (more_rules_fewer_nodes (mkRules [] []) (mkRules [py "sub"] [])
           (Directory None
              [ (py "sub", Directory None []);
                (py "a.py", text_file (py "x=1")) ])
           [ XFile (py "a.py") (py "a.py") (py "python") (py "x=1");
             XDirectory (py "sub") (py "sub") [] ]
           [XFile (py "a.py") (py "a.py") (py "python") (py "x=1")]
           (XFile (py "a.py") (py "a.py") (py "python") (py "x=1"))).
  - split; intros x [].
  - reflexivity.
  - reflexivity.
  - left. reflexivity.
Defined.

(* ================================================================= *)
(** * What status 0 means *)

(** X19.  When [main] returns 0, the source is a directory, its traversal
    and the rendering of its document ended normally, the output file could
    be opened, and the text written is the rendered document without its
    empty lines. *)
Theorem status_zero_means_written :
  forall toprettyxml w source_path output_path exclude exclude_files,
    returned (main toprettyxml w source_path output_path
                exclude exclude_files) = Ok 0%N ->
    exists root doc pretty_xml,
      repo_entry w = Some root /\ isdir root = true /\
      document_of root source_path (mkRules exclude exclude_files) = Ok doc /\
      toprettyxml doc = Ok pretty_xml /\
      open_output_raises w = None /\
      written (main toprettyxml w source_path output_path
                 exclude exclude_files)
      = Some (remove_empty_lines pretty_xml).
Proof.
  intros toprettyxml w source_path output_path exclude exclude_files.
  unfold main, describe_repo_contents_xml, final_xml_of. cbn [or_default].
  destruct (repo_entry w) as [root|]; [|discriminate].
  destruct (isdir root) eqn:Hdir; [|discriminate]. cbn [negb].
  destruct (document_of root source_path (mkRules exclude exclude_files))
    as [doc|] eqn:Hdoc; [|discriminate]. cbn [bind].
  destruct (if str_eqb (dirname output_path) [] then Ok tt
            else check (makedirs_raises w)); [|discriminate].
  cbn [bind].
  destruct (toprettyxml doc) as [pretty_xml|] eqn:Hpretty; [|discriminate].
  cbn [bind]. destruct (open_output_raises w) eqn:Hopen; [discriminate|].
  cbn. intros _. exists root, doc, pretty_xml. auto 10.
Qed.

Lemma status_zero_means_written_witness :
  exists root doc pretty_xml,
    repo_entry sample_world = Some root /\ isdir root = true /\
    document_of root (py "/home/u/repo") (mkRules [] []) = Ok doc /\
    paths_renderer doc = Ok pretty_xml /\
    open_output_raises sample_world = None /\
    written (main paths_renderer sample_world (py "/home/u/repo")
               (py "/tmp/out.xml") [] [])
    = Some (remove_empty_lines pretty_xml).
Proof.
  apply (status_zero_means_written paths_renderer sample_world
           (py "/home/u/repo") (py "/tmp/out.xml") [] []).
  reflexivity.
Defined.

(* ================================================================= *)
(** * No path is given twice *)

Lemma insert_sorted_permutation x l : Permutation (insert_sorted x l) (x :: l).
Proof.
  induction l as [|y l IH]; simpl; [reflexivity|].
  destruct (str_leb x y); [reflexivity|].
  rewrite IH. apply perm_swap.
Qed.

Lemma sorted_is_permutation l : Permutation (sorted l) l.
Proof.
  induction l as [|x l IH]; simpl; [reflexivity|].
  rewrite insert_sorted_permutation, IH. reflexivity.
Qed.

Lemma for_items_paths_nodup (Q : pystr -> pystr -> Prop) items body tree :
  NoDup items ->
  (forall item here,
      In item items -> body item = Ok here ->
      NoDup (map node_path (all_nodes here)) /\
      forall p, In p (map node_path (all_nodes here)) -> Q item p) ->
  (forall item item' p, Q item p -> Q item' p -> item = item') ->
  for_items items body = Ok tree ->
  NoDup (map node_path (all_nodes tree)) /\
  forall p, In p (map node_path (all_nodes tree)) ->
            exists item, In item items /\ Q item p.
Proof.
  intros Hnodup Hbody Hq. revert tree.
  induction items as [|item rest IH]; intros tree H.
  - inversion H. subst. split; [constructor | intros p []].
  - apply for_items_ok_inv in H.
    destruct H as [here [more [Hhere [Hmore ->]]]].
    inversion Hnodup as [|? ? Hnotin Hrest]; subst.
    destruct (Hbody item here (or_introl eq_refl) Hhere) as [Hn Hqs].
    destruct IH with (tree := more) as [IHn IHq]; try assumption.
    { intros item' here' Hin. apply Hbody. right. exact Hin. }
    rewrite all_nodes_app, map_app. split.
    + apply NoDup_app; try assumption.
      intros p Hp Hp'. destruct (IHq p Hp') as [item' [Hin' Hq']].
      apply Hnotin. rewrite (Hq item item' p (Hqs p Hp) Hq'). exact Hin'.
    + intros p Hp. apply in_app_or in Hp. destruct Hp as [Hp|Hp].
      * exists item. split; [left; reflexivity | apply Hqs, Hp].
      * destruct (IHq p Hp) as [item' [Hin' Hq']].
        exists item'. split; [right; exact Hin' | exact Hq'].
Qed.

Lemma distinct_names_listing err items :
  distinct_names (Directory err items) -> NoDup (map fst items).
Proof. intros [H _]. exact H. Qed.

Lemma build_paths_nodup d :
  forall r (path : list pystr) tree,
    Forall (fun name : pystr => ~ In os_sep name) path ->
    valid_names d -> distinct_names d ->
    build_structure_xml r path d = Ok tree ->
    NoDup (map node_path (all_nodes tree)).
Proof.
  induction d as [f|f|err items IH] using entry_induction;
    intros r path tree Hpath Hvalid Hdistinct Hbuild; try discriminate.
  destruct err as [err|].
  - rewrite build_structure_xml_unlistable in Hbuild.
    destruct (is_PermissionError err); [|discriminate].
    inversion Hbuild. constructor.
  - rewrite build_structure_xml_listed in Hbuild.
    apply (for_items_paths_nodup
             (fun item p =>
                exists segments,
                  p = relpath (path ++ item :: segments) /\
                  Forall (fun name => ~ In os_sep name) (item :: segments))
             (sorted (map fst items)) (loop_body r path items) tree).
    + apply (Permutation_NoDup
               (Permutation_sym (sorted_is_permutation (map fst items)))).
      apply (distinct_names_listing _ _ Hdistinct).
    + intros item here _ Hhere.
      destruct (loop_body_shape _ _ _ _ _ Hhere)
        as [->|[n [child [-> [_ [Hlook Hproc]]]]]].
      { split; [constructor | intros p []]. }
      apply lookup_in in Hlook.
      destruct (valid_names_items _ _ _ _ Hvalid Hlook) as [Hitem Hchild].
      pose proof (distinct_names_items _ _ _ _ Hdistinct Hlook) as Hdchild.
      assert (Forall (fun name => ~ In os_sep name) (path ++ [item]))
        as Hpath'
        by (apply Forall_app; split; [exact Hpath | repeat constructor; exact Hitem]).
      revert Hproc. unfold process_item.
      destruct (should_exclude_path _ _ _ _); [discriminate|].
      destruct (isdir child) eqn:Hdir.
      * unfold bind.
        destruct (build_structure_xml r (path ++ [item]) child)
          as [children|] eqn:Hchildren; [|discriminate].
        intros Hproc. inversion Hproc. subst n. clear Hproc.
        assert (forall p,
                   In p (map node_path (all_nodes children)) ->
                   exists segments,
                     segments <> [] /\
                     p = relpath ((path ++ [item]) ++ segments) /\
                     Forall (fun name => ~ In os_sep name) segments)
          as Hbelow.
        { intros p Hp. apply in_map_iff in Hp. destruct Hp as [m [<- Hm]].
          destruct (build_sound child r (path ++ [item]) children m
                      Hchildren Hm)
            as [segments [e [Hv [_ [_ [_ [Hp _]]]]]]].
          exists segments. split; [eapply visits_not_nil; exact Hv|].
          split; [exact Hp|].
          eapply visits_valid_segments; eassumption. }
        unfold all_nodes at 1 2. cbn [flat_map subtree map app].
        rewrite app_nil_r. fold (all_nodes children). split.
        -- constructor.
           ++ intros Hin. destruct (Hbelow _ Hin) as [segments [Hne [Heq Hs]]].
              apply relpath_injective in Heq.
              ** rewrite <- (app_nil_r (path ++ [item])) in Heq at 1.
                 apply app_inv_head in Heq. congruence.
              ** destruct path; discriminate.
              ** destruct path; discriminate.
              ** exact Hpath'.
              ** apply Forall_app. split; assumption.
           ++ rewrite Forall_forall in IH.
              apply (IH _ Hlook r (path ++ [item]) children Hpath' Hchild
                       Hdchild Hchildren).
        -- intros p [<-|Hp].
           ++ exists []. split; [reflexivity | repeat constructor; exact Hitem].
           ++ destruct (Hbelow p Hp) as [segments [_ [-> Hs]]].
              exists segments. rewrite <- app_assoc.
              split; [reflexivity | constructor; assumption].
      * unfold file_element, bind.
        destruct (load_content (file_io_of child)); [|discriminate].
        intros Hproc. inversion Hproc. subst n. clear Hproc.
        unfold all_nodes. cbn [flat_map subtree map app node_path]. split.
        -- constructor; [intros [] | constructor].
        -- intros p [<-|[]]. exists [].
           split; [reflexivity | repeat constructor; exact Hitem].
    + intros item item' p [segments [-> Hs]] [segments' [Heq Hs']].
      apply relpath_injective in Heq.
      * apply app_inv_head in Heq. congruence.
      * destruct path; discriminate.
      * destruct path; discriminate.
      * apply Forall_app. split; assumption.
      * apply Forall_app. split; assumption.
    + exact Hbuild.
Qed.

(** X20.  In a tree under [repo_folder] in which no name holds the
    separator and no directory holds a name twice, no two nodes of the
    output have the same path. *)
Theorem no_path_twice :
  forall r root tree,
    valid_names root -> distinct_names root ->
    build_structure_xml r [] root = Ok tree ->
    NoDup (map node_path (all_nodes tree)).
Proof.
  intros r root tree Hvalid Hdistinct Hbuild.
  apply (build_paths_nodup root r [] tree); try assumption. constructor.
Qed.

Lemma sample_root_distinct : distinct_names sample_root.
Proof.
  simpl. repeat split; repeat constructor; simpl; intuition discriminate.
Qed.

Lemma no_path_twice_witness :
  NoDup (map node_path
           (all_nodes
              [ XFile (py "a.py") (py "a.py") (py "python") (py "x=1");
                XFile (py "broken") (py "broken") (py "text")
                  (unreadable_text io_error);
                XDirectory (py "docs") (py "docs")
                  [XFile (py "x.md") (py "docs/x.md") (py "markdown")
                     (py "# x")];
                XDirectory (py "locked") (py "locked") [];
                XFile (py "secret.env") (py "secret.env") (py "text")
                  (py "k=v");
                XDirectory (py "sub") (py "sub")
                  [XFile (py "b.txt") (py "sub/b.txt") (py "text") (py "hi")] ])).
Proof.
  apply (no_path_twice (mkRules [] []) sample_root).
  - exact sample_root_valid.
  - exact sample_root_distinct.
  - reflexivity.
Defined.

(* ================================================================= *)
(** * Exceptions of a file that are not recovered from *)

Lemma load_content_propagates f e :
  is_read_error e = false ->
  (getsize f = Raise e \/
   exists file_size,
     getsize f = Ok file_size /\ (file_size <= size_limit)%N /\
     read f = Raise e) ->
  load_content f = Raise e.
Proof.
  intros Hclass Hfails. unfold load_content, on_read_error.
  destruct Hfails as [Hsize | [file_size [Hsize [Hle Hread]]]].
  - rewrite Hsize, Hclass. reflexivity.
  - rewrite Hsize, Hread, Hclass. apply N.ltb_ge in Hle. rewrite Hle.
    reflexivity.
Qed.

(** X21.  The handler of the content loader recovers from the three classes
    only: when measuring or reading an included file that the traversal
    comes to raises an exception of another class, the content loader raises
    it, the operation raises, nothing is written and [main] returns 1. *)
Theorem other_file_errors_abort :
  forall toprettyxml w root repo_folder output_path r segments e err,
    repo_entry w = Some root -> isdir root = true ->
    visits r [] root segments = true ->
    resolve root segments = Some e ->
    isdir e = false ->
    included r segments (last segments []) e = true ->
    is_read_error err = false ->
    (getsize (file_io_of e) = Raise err \/
     exists file_size,
       getsize (file_io_of e) = Ok file_size /\
       (file_size <= size_limit)%N /\
       read (file_io_of e) = Raise err) ->
    load_content (file_io_of e) = Raise err /\
    exists raised,
      describe_repo_contents_xml toprettyxml w repo_folder output_path
        (Some (exclude_folders r)) (Some (exclude_files r))
      = mkOutcome (Raise raised) None /\
      main toprettyxml w repo_folder output_path
        (exclude_folders r) (exclude_files r)
      = mkOutcome (Ok 1%N) None.
Proof.
  intros toprettyxml w root repo_folder output_path r segments e err
    Hroot Hdir Hv Hres Hfile Hinc Hclass Hfails.
  pose proof (load_content_propagates (file_io_of e) err Hclass Hfails)
    as Hload.
  split; [exact Hload|].
  destruct (build_structure_xml r [] root) as [tree|raised] eqn:Hbuild.
  - destruct (included_file_node r root tree segments e
                Hbuild Hv Hres Hfile Hinc) as [content [Hcontent _]].
    congruence.
  - exists raised.
    apply (run_aborts_in_traversal toprettyxml w root repo_folder
             output_path r raised Hroot Hdir Hbuild).
Qed.

Lemma other_file_errors_abort_witness :
  load_content
    (mkFile (Ok 3%N) (Raise (mkExn OtherException (py "out of memory"))))
  = Raise (mkExn OtherException (py "out of memory")) /\
  exists raised,
    describe_repo_contents_xml paths_renderer
      (mkWorld
         (Some (Directory None
                  [(py "big",
                    RegularFile
                      (mkFile (Ok 3%N)
                         (Raise (mkExn OtherException
                                   (py "out of memory")))))]))
         None None)
      (py "/home/u/repo") (py "/tmp/out.xml") (Some []) (Some [])
    = mkOutcome (Raise raised) None /\
    main paths_renderer
      (mkWorld
         (Some (Directory None
                  [(py "big",
                    RegularFile
                      (mkFile (Ok 3%N)
                         (Raise (mkExn OtherException
                                   (py "out of memory")))))]))
         None None)
      (py "/home/u/repo") (py "/tmp/out.xml") [] []
    = mkOutcome (Ok 1%N) None.
Proof.
  apply (other_file_errors_abort paths_renderer
           (mkWorld
              (Some (Directory None
                       [(py "big",
                         RegularFile
                           (mkFile (Ok 3%N)
                              (Raise (mkExn OtherException
                                        (py "out of memory")))))]))
              None None)
           (Directory None
              [(py "big",
                RegularFile
                  (mkFile (Ok 3%N)
                     (Raise (mkExn OtherException (py "out of memory")))))])
           (py "/home/u/repo") (py "/tmp/out.xml") (mkRules [] [])
           [py "big"]
           (RegularFile
              (mkFile (Ok 3%N)
                 (Raise (mkExn OtherException (py "out of memory")))))
           (mkExn OtherException (py "out of memory"))).
  - reflexivity.
  - reflexivity.
  - reflexivity.
  - reflexivity.
  - reflexivity.
  - reflexivity.
  - reflexivity.
  - right. exists 3%N. repeat split. discriminate.
Defined.
